(** * LLMBot: the turn decision pipeline of [environments/openspiel/llm_bot.py]

    A shallow embedding of the [LLMBot] class and the proofs of the
    properties its specification states.

    Conventions of the model.
    - Python [int] is [Z]; a Python [str] is a [string].  The characters of
      ASCII stand under their codes.  [re] and [str] tell the characters
      outside ASCII apart by their Unicode class only, and so does the model:
      the codes 240 to 249 stand for the decimal digits outside ASCII (the
      Arabic-Indic or the fullwidth digits, say) of the values 0 to 9, the
      code 250 for a letter or another alphanumeric character outside ASCII,
      the code 251 for white space outside ASCII, and every other code from
      128 on is a symbol.  The texts that the engine renders (the state and
      the descriptions of the actions) are taken to be ASCII.
    - [int(text)] raises [ValueError] on more than 4300 digits, the default
      of [sys.set_int_max_str_digits] (Python 3.11 and later).
    - [np.random.RandomState] is an abstract random source ([RandomSource]):
      the bot owns a generator state, and a draw returns an index below the
      requested bound together with the next generator state.
    - The injected [llm_chat_fn] is an oracle: for a prompt and the number of
      the attempt within the turn the bridged call returns [(content, usage)],
      or times out, or raises an [Exception], or raises an exception that is
      not an [Exception] ([asyncio.CancelledError], [KeyboardInterrupt],
      [SystemExit]).
    - A method of the bot is a computation over the bot's fields that also
      emits the observable events of the turn (calls of the LLM function,
      diagnostic prints, sleeps) and ends by returning or by raising. *)

From Stdlib Require Import ZArith List String Ascii Lia Bool DecimalString.
From Stdlib Require Import DecimalZ.
From stdpp Require Import gmap strings list.

Local Open Scope nat_scope.

(* ===================================================================== *)
(** * Text *)
(* ===================================================================== *)

Module Text.

Definition code (c : ascii) : nat := nat_of_ascii c.

Definition between (lo hi n : nat) : bool := (lo <=? n) && (n <=? hi).

(** [str.isspace] on one character: TAB, LF, VT, FF, CR, FS, GS, RS, US
    and the space, and the white space outside ASCII. *)
Definition isspace (c : ascii) : bool :=
  between 9 13 (code c) || between 28 32 (code c) || (code c =? 251).

(** The digits of ASCII. *)
Definition ascii_digit (c : ascii) : bool := between 48 57 (code c).

(** The class [\d] of a pattern on [str]: the decimal digits of Unicode. *)
Definition is_digit (c : ascii) : bool :=
  ascii_digit c || between 240 249 (code c).

(** The class [\w] of a pattern on [str]: the alphanumeric characters of
    Unicode and the underscore. *)
Definition is_word (c : ascii) : bool :=
  is_digit c || between 65 90 (code c) || between 97 122 (code c)
  || (code c =? 95) || (code c =? 250).

Definition chars (s : string) : list ascii := list_ascii_of_string s.
Definition text (l : list ascii) : string := string_of_list_ascii l.

(** [str.lstrip()], [str.rstrip()] and [str.strip()]. *)
Fixpoint lstrip (l : list ascii) : list ascii :=
  match l with
  | c :: l' => if isspace c then lstrip l' else l
  | [] => []
  end.

Definition rstrip (l : list ascii) : list ascii := rev (lstrip (rev l)).

Definition strip (l : list ascii) : list ascii := rstrip (lstrip l).

(** [str.split()] without a separator: the maximal runs of characters that
    are not white space.  [cur] holds the run being read, last character
    first. *)
Fixpoint split_from (cur l : list ascii) : list (list ascii) :=
  match l with
  | [] => match cur with [] => [] | _ => [rev cur] end
  | c :: l' =>
      if isspace c
      then match cur with
           | [] => split_from [] l'
           | _ => rev cur :: split_from [] l'
           end
      else split_from (c :: cur) l'
  end.

Definition split (s : string) : list string :=
  map text (split_from [] (chars s)).

(** [str.isdigit()] on a part of the text of a state, which is ASCII: not
    empty and digits only. *)
Definition isdigit (s : string) : bool :=
  match chars s with
  | [] => false
  | l => forallb ascii_digit l
  end.

(** [sep.join(parts)]. *)
Fixpoint join (sep : string) (parts : list string) : string :=
  match parts with
  | [] => EmptyString
  | [p] => p
  | p :: ps => p +:+ sep +:+ join sep ps
  end.

(** [str(n)] for an [int]. *)
Definition str (n : Z) : string := NilZero.string_of_int (Z.to_int n).

(** The value of a decimal digit, as [int] reads it. *)
Definition digit_value (c : ascii) : Z :=
  Z.of_nat (if ascii_digit c then code c - 48 else code c - 240).

(** The value of a run of decimal digits, most significant first. *)
Definition digits_value (l : list ascii) : Z :=
  fold_left (fun acc c => (10 * acc + digit_value c)%Z) l 0%Z.

(** [chr(10)] and the double quote. *)
Definition nl : string := String "010" EmptyString.
Definition dq : string := String "034" EmptyString.

(** The separator [' → '] of the bid history, the arrow being written as
    the three bytes of its UTF-8 encoding, which are symbols. *)
Definition arrow : string :=
  " " +:+ String "226" (String "134" (String "146" EmptyString)) +:+ " ".

(** [needle in hay]. *)
Definition occurs (needle hay : string) : Prop :=
  exists pre post, hay = pre +:+ needle +:+ post.

(** [needle in hay], computed. *)
Fixpoint starts_with (needle hay : list ascii) : bool :=
  match needle, hay with
  | [], _ => true
  | a :: needle', b :: hay' => Ascii.eqb a b && starts_with needle' hay'
  | _ :: _, [] => false
  end.

Fixpoint contains_from (needle hay : list ascii) : bool :=
  starts_with needle hay
  || match hay with
     | [] => false
     | _ :: hay' => contains_from needle hay'
     end.

Definition contains (needle hay : string) : bool :=
  contains_from (chars needle) (chars hay).

End Text.

(* ===================================================================== *)
(** * The regular expressions of [re] that the bot uses *)
(* ===================================================================== *)

Module Re.
Import Text.

Inductive regex : Type :=
| Boundary                    (* \b *)
| Digit                       (* \d *)
| Plus (r : regex)            (* r+ , greedy *)
| Group (r : regex)           (* ( r ), the capture group *)
| Seq (r1 r2 : regex).        (* r1 r2 *)

(** A match object: its span and the span of the capture group. *)
Record match_object : Type := MatchObject {
  m_start : nat;
  m_end : nat;
  m_group : option (nat * nat)
}.

Section Matcher.
Variable s : list ascii.

Definition word_at (i : nat) : bool :=
  match s !! i with
  | Some c => is_word c
  | None => false
  end.

(** [\b] holds between a word character and a character that is not one,
    the two ends of the text counting as not a word character. *)
Definition at_boundary (i : nat) : bool :=
  xorb (match i with O => false | S p => word_at p end) (word_at i).

Definition continuation : Type :=
  nat -> option (nat * nat) -> option match_object.

(** Greedy repetition of [body], one time or more: after each round that
    consumed something, first try another round, then the rest of the
    pattern.  A round consumes at least one character, so the length of
    the text bounds the number of rounds. *)
Fixpoint iterate (body : nat -> option (nat * nat) -> continuation ->
                         option match_object)
    (k : continuation) (fuel i : nat) (g : option (nat * nat))
    {struct fuel} : option match_object :=
  match fuel with
  | O => None
  | S fuel' =>
      body i g (fun j g' =>
        if i <? j
        then match iterate body k fuel' j g' with
             | Some m => Some m
             | None => k j g'
             end
        else k j g')
  end.

(** The backtracking matcher: [rmatch r i g k] matches [r] from position
    [i] and hands every way of doing so, in the order of preference of
    [re], to the continuation [k], until [k] succeeds. *)
Fixpoint rmatch (r : regex) (i : nat) (g : option (nat * nat))
    (k : continuation) {struct r} : option match_object :=
  match r with
  | Boundary => if at_boundary i then k i g else None
  | Digit =>
      match s !! i with
      | Some c => if is_digit c then k (S i) g else None
      | None => None
      end
  | Seq r1 r2 => rmatch r1 i g (fun j g' => rmatch r2 j g' k)
  | Group r1 => rmatch r1 i g (fun j _ => k j (Some (i, j)))
  | Plus r1 => iterate (rmatch r1) k (S (length s)) i g
  end.

Definition match_at (r : regex) (i : nat) : option match_object :=
  rmatch r i None (fun j g => Some (MatchObject i j g)).

(** [re.search]: the match at the leftmost position that has one. *)
Fixpoint search_from (r : regex) (n i : nat) : option match_object :=
  match n with
  | O => None
  | S n' =>
      match match_at r i with
      | Some m => Some m
      | None => search_from r n' (S i)
      end
  end.

Definition search (r : regex) : option match_object :=
  search_from r (S (length s)) 0.

(** [m.group(1)]. *)
Definition group1 (m : match_object) : option (list ascii) :=
  match m_group m with
  | Some (a, b) => Some (take (b - a) (drop a s))
  | None => None
  end.

End Matcher.

(** The pattern [\b(\d+)\b]. *)
Definition action_pattern : regex :=
  Seq Boundary (Seq (Group (Plus Digit)) Boundary).

End Re.

Import Text Re.

(* ===================================================================== *)
(** * The collaborators: random source, game engine, LLM function *)
(* ===================================================================== *)

(** [np.random.RandomState]: [randint r n] draws an index from [0, n) and
    gives the next state of the generator. *)
Class RandomSource : Type := {
  RandomState : Type;
  randint : RandomState -> nat -> nat * RandomState;
  randint_lt : forall r n, 0 < n -> fst (randint r n) < n
}.

(** A linear congruential generator, for running the model. *)
Definition lcg_next (r : nat) : nat := (r * 13 + 7) mod 256.

Definition lcg : RandomSource := {|
  RandomState := nat;
  randint := fun r n => (r mod n, lcg_next r);
  randint_lt := fun r n H =>
    Nat.mod_upper_bound r n (proj2 (Nat.neq_0_lt_0 n) H)
|}.

(** A Python exception: the name of its type and its [str]. *)
Record exception : Type := Exception {
  exc_type : string;
  exc_str : string
}.

Inductive result (A : Type) : Type :=
| Returned (a : A)
| Raised (e : exception).
Arguments Returned {A} a.
Arguments Raised {A} e.

(** The part of [pyspiel.State] and [pyspiel.Game] that the bot consumes. *)
Record State : Type := {
  state_str : string;                         (* str(state) *)
  legal_actions : Z -> list Z;                (* state.legal_actions(player) *)
  action_to_string : Z -> Z -> string         (* state.action_to_string(player, action) *)
}.

Record Game : Type := {
  short_name : string;                        (* game.get_type().short_name *)
  num_players : Z                             (* game.num_players() *)
}.

(** The three keys that [step] reads in a usage dict, in the order in which
    it reads them. *)
Inductive usage_key : Type :=
| PromptTokens
| CompletionTokens
| TotalTokens.

(** What one bridged call of [llm_chat_fn] does.
    - [LLMReturns]: [future.result(timeout=...)] returns [(response, usage)],
      [usage] being [None] or a dict of numbers.
    - [LLMReturnsBadUsage]: it returns [(response, usage)] with a dict that
      holds under the key [bad] a value that cannot be added to an [int]
      ([None], say), and numbers under the other keys: the addition for
      [bad] raises [e], a [TypeError].
    - [LLMTimesOut]: it raises [concurrent.futures.TimeoutError].
    - [LLMRaises]: it raises [e], an [Exception] other than the timeout.
    - [LLMAborts]: it raises [e], which is not an [Exception]:
      [asyncio.CancelledError], [KeyboardInterrupt] or [SystemExit].
    [traceback] is the text of [traceback.format_exc()] for [e]. *)
Inductive llm_outcome : Type :=
| LLMReturns (response : string) (usage : option (gmap string Z))
| LLMReturnsBadUsage (response : string) (usage : gmap string Z)
    (bad : usage_key) (e : exception) (traceback : string)
| LLMTimesOut
| LLMRaises (e : exception) (traceback : string)
| LLMAborts (e : exception).

(** The injected function, as seen from one turn: the outcome of the call
    with this prompt at this attempt. *)
Definition llm_chat_fn : Type := string -> Z -> llm_outcome.

(** What a turn does that can be observed from outside the bot. *)
Inductive event : Type :=
| LLMCall (prompt : string) (timeout : Z)
| Print (line : string)
| Sleep (seconds : Z).

(* ===================================================================== *)
(** * Agent state *)
(* ===================================================================== *)

(** An entry of the conversation: [{"role": ..., "content": ...}]. *)
Record message : Type := Message {
  role : string;
  content : string
}.

(** The record of the last error:
    [{"prompt": ..., "error": ..., "attempts": ...}]. *)
Record error_record : Type := ErrorRecord {
  err_prompt : string;
  err_error : string;
  err_attempts : Z
}.

(** [_total_usage]: a dict that holds these three keys from its creation on. *)
Record usage_totals : Type := UsageTotals {
  prompt_tokens : Z;
  completion_tokens : Z;
  total_tokens : Z
}.

Definition zero_usage : usage_totals :=
  {| prompt_tokens := 0; completion_tokens := 0; total_tokens := 0 |}.

Section Bot.
Context {RS : RandomSource}.

Record LLMBot : Type := {
  _game : Game;
  _player_id : Z;
  _rng : RandomState;
  _action_history : list (Z * Z);
  _conversation : list message;
  _last_error : option error_record;
  _total_usage : usage_totals
}.

(** ** Computations over the bot *)

Record run (A : Type) : Type := Run {
  output : list event;
  outcome : result A;
  final : LLMBot
}.
Arguments Run {A} output outcome final.
Arguments output {A} r.
Arguments outcome {A} r.
Arguments final {A} r.

Definition M (A : Type) : Type := LLMBot -> run A.

Definition ret {A : Type} (a : A) : M A :=
  fun self => Run [] (Returned a) self.

Definition raise {A : Type} (e : exception) : M A :=
  fun self => Run [] (Raised e) self.

Definition bind {A B : Type} (m : M A) (f : A -> M B) : M B :=
  fun self =>
    let r := m self in
    match outcome r with
    | Returned a =>
        let r' := f a (final r) in
        Run (output r ++ output r') (outcome r') (final r')
    | Raised e => Run (output r) (Raised e) (final r)
    end.

Definition get : M LLMBot := fun self => Run [] (Returned self) self.

Definition modify (f : LLMBot -> LLMBot) : M unit :=
  fun self => Run [] (Returned tt) (f self).

Definition emit (e : event) : M unit :=
  fun self => Run [e] (Returned tt) self.

Notation "'let*' x ':=' m 'in' k" := (bind m (fun x => k))
  (at level 10, x name, m at level 100, k at level 200).
Notation "m ';;' k" := (bind m (fun _ => k))
  (at level 100, k at level 200, right associativity).

(** ** Field updates *)

Definition set_rng (r : RandomState) (self : LLMBot) : LLMBot :=
  {| _game := _game self; _player_id := _player_id self; _rng := r;
     _action_history := _action_history self;
     _conversation := _conversation self;
     _last_error := _last_error self;
     _total_usage := _total_usage self |}.

Definition set_action_history (h : list (Z * Z)) (self : LLMBot) : LLMBot :=
  {| _game := _game self; _player_id := _player_id self; _rng := _rng self;
     _action_history := h;
     _conversation := _conversation self;
     _last_error := _last_error self;
     _total_usage := _total_usage self |}.

Definition set_conversation (c : list message) (self : LLMBot) : LLMBot :=
  {| _game := _game self; _player_id := _player_id self; _rng := _rng self;
     _action_history := _action_history self;
     _conversation := c;
     _last_error := _last_error self;
     _total_usage := _total_usage self |}.

Definition set_last_error (e : option error_record) (self : LLMBot) : LLMBot :=
  {| _game := _game self; _player_id := _player_id self; _rng := _rng self;
     _action_history := _action_history self;
     _conversation := _conversation self;
     _last_error := e;
     _total_usage := _total_usage self |}.

Definition set_total_usage (u : usage_totals) (self : LLMBot) : LLMBot :=
  {| _game := _game self; _player_id := _player_id self; _rng := _rng self;
     _action_history := _action_history self;
     _conversation := _conversation self;
     _last_error := _last_error self;
     _total_usage := u |}.

(** [self._rng.choice(a)]: raises [ValueError] on an empty sequence, and
    otherwise returns the element at the index drawn below [len(a)]. *)
Definition rng_choice (a : list Z) : M Z :=
  match a with
  | [] =>
      raise (Exception "ValueError"
               "'a' cannot be empty unless no samples are taken")
  | _ =>
      let* self := get in
      let (i, r) := randint (_rng self) (length a) in
      modify (set_rng r);;
      match a !! i with
      | Some x => ret x
      | None => raise (Exception "IndexError" "index out of bounds")
      end
  end.

(** ** [__init__], [restart_at], [inform_action] and the accessors *)

(** [rng] is the generator [np.random.RandomState(rng_seed)]; the injected
    function is handed to [step], which is where it is called. *)
Definition __init__ (game : Game) (player_id : Z) (rng : RandomState)
    : LLMBot :=
  {| _game := game; _player_id := player_id; _rng := rng;
     _action_history := [];
     _conversation := [];
     _last_error := None;
     _total_usage := zero_usage |}.

Definition restart_at (state : State) : M unit :=
  modify (set_action_history []);;
  modify (set_conversation []);;
  modify (set_last_error None);;
  modify (set_total_usage zero_usage).

Definition inform_action (state : State) (player_id action : Z) : M unit :=
  modify (fun self =>
    set_action_history (_action_history self ++ [(player_id, action)]) self).

Definition get_conversation (self : LLMBot) : list message :=
  _conversation self.

Definition get_last_error (self : LLMBot) : option error_record :=
  _last_error self.

Definition get_total_usage (self : LLMBot) : usage_totals :=
  _total_usage self.


(** ** Prompt construction *)

(** [l.count(x)]. *)
Definition count (l : list Z) (x : Z) : Z :=
  Z.of_nat (length (filter (fun y => y = x) l)).

Definition _generate_default_prompt (self : LLMBot) (state : State)
    (game_name : string) : string :=
  let state_str := state_str state in
  let legal_actions := legal_actions state (_player_id self) in
  let actions_desc :=
    map (fun action =>
           str action +:+ ": "
           +:+ action_to_string state (_player_id self) action)
        legal_actions in
  let prompt :=
    join nl
      [ "You are playing " +:+ game_name +:+ ".";
        EmptyString;
        "Current game state:";
        state_str;
        EmptyString;
        "You are Player " +:+ str (_player_id self) +:+ ".";
        EmptyString;
        "Legal actions:";
        join nl actions_desc;
        EmptyString;
        "Choose one action by responding with ONLY the action number.";
        "Your choice: " ] in
  prompt.

Definition _generate_liars_dice_prompt (self : LLMBot) (state : State)
    (is_first_turn : bool) : string :=
  (* Parse state to extract player's dice and bid history *)
  let state_str := state_str state in
  let parts := split state_str in
  (* Extract player's dice (first sequence of digits) *)
  let my_dice_str := match parts with p :: _ => p | [] => EmptyString end in
  let my_dice :=
    if isdigit my_dice_str
    then map digit_value (chars my_dice_str)
    else [] in
  (* Extract bid history (remaining parts) *)
  let bid_history := if 1 <? length parts then drop 1 parts else [] in
  (* Get legal actions *)
  let legal_actions := legal_actions state (_player_id self) in
  let actions_desc :=
    map (fun action =>
           str action +:+ ": "
           +:+ action_to_string state (_player_id self) action)
        legal_actions in
  (* Count total dice in game *)
  let num_players := num_players (_game self) in
  let dice_per_player := Z.of_nat (length my_dice) in
  let total_dice := (num_players * dice_per_player)%Z in
  if is_first_turn then
    (* First turn: include full rules explanation *)
    let prompt :=
      join nl
        [ "You are playing LIAR'S DICE - A bluffing and deduction game.";
          EmptyString;
          "=== GAME RULES ===";
          "Players: " +:+ str num_players +:+ " players";
          "Dice per player: " +:+ str dice_per_player +:+ " dice (values 1-6)";
          "Total dice in game: " +:+ str total_dice +:+ " dice";
          EmptyString;
          "HOW TO PLAY:";
          "1. Each player has their own dice (hidden from others)";
          "2. Players take turns making BIDS about the total dice across ALL players";
          "3. A bid is " +:+ dq +:+ "quantity-face" +:+ dq +:+ " (e.g., " +:+ dq +:+ "3-5" +:+ dq +:+ " means " +:+ dq +:+ "at least three 5s exist among all " +:+ str total_dice +:+ " dice" +:+ dq +:+ ")";
          "4. SPECIAL RULE: 1s are WILD - they count as any face value";
          "5. Each bid must be HIGHER than the previous:";
          "   - Higher quantity with any face, OR";
          "   - Same quantity with higher face value";
          "6. Instead of bidding higher, you can call " +:+ dq +:+ "Liar" +:+ dq +:+ " to challenge the previous bid";
          "7. If you call " +:+ dq +:+ "Liar" +:+ dq +:+ ": count all dice; if bid was FALSE, bidder loses; if TRUE, caller loses";
          EmptyString;
          "STRATEGY TIPS:";
          "- You can see your own " +:+ str dice_per_player +:+ " dice";
          "- Estimate what others might have (each die has 1/6 chance of any face)";
          "- Remember: 1s are wild and count toward any face";
          "- Conservative bids are safer; aggressive bids apply pressure";
          EmptyString;
          "=== YOUR CURRENT SITUATION ===";
          "Your dice: " +:+ join ", " (map str my_dice);
          "Your dice count by face:";
          EmptyString ] in
    (* Add dice count analysis *)
    let prompt :=
      fold_left
        (fun prompt face =>
           let count := count my_dice face in
           let prompt :=
             prompt +:+ "  " +:+ str face +:+ "s: " +:+ str count
             +:+ " dice" in
           let prompt :=
             if (face =? 1)%Z && (0 <? count)%Z
             then prompt +:+ " (WILD - counts as any face)"
             else prompt in
           prompt +:+ nl)
        (seqZ 1 6) prompt in
    prompt +:+
      join nl
        [ EmptyString;
          "Bid history: None (you're making the opening bid)";
          EmptyString;
          "YOUR TASK:";
          "Make an opening bid. Choose conservatively based on your dice.";
          "Since you have " +:+ str (count my_dice 1) +:+ " wild 1s, you can bid on faces you don't have.";
          EmptyString;
          "Legal actions:";
          join nl actions_desc;
          EmptyString;
          "Respond with ONLY the action number.";
          "Your choice: " ]
  else
    (* Subsequent turns: concise prompt *)
    let current_bid :=
      match last bid_history with
      | Some b => b
      | None => "None"
      end in
    let history :=
      match bid_history with
      | [] => "None"
      | _ => join arrow bid_history
      end in
    join nl
      [ "LIAR'S DICE - Player " +:+ str (_player_id self) +:+ "'s Turn";
        EmptyString;
        "Your dice (" +:+ str dice_per_player +:+ " dice): " +:+ join ", " (map str my_dice);
        "Total dice in game: " +:+ str total_dice;
        "Current bid: " +:+ current_bid;
        EmptyString;
        "Bid history: " +:+ history;
        EmptyString;
        "Remember: 1s are WILD (count as any face)";
        EmptyString;
        "Legal actions:";
        join nl actions_desc;
        EmptyString;
        "Respond with ONLY the action number.";
        "Your choice: " ].

Definition _generate_prompt (self : LLMBot) (state : State) : string :=
  let game_name := short_name (_game self) in
  (* Check if this is the first turn (empty conversation) *)
  let is_first_turn := length (_conversation self) =? 0 in
  (* Game-specific prompt generation *)
  if String.eqb game_name "liars_dice"
  then _generate_liars_dice_prompt self state is_first_turn
  else _generate_default_prompt self state game_name.


(** ** Response parsing *)

(** The default of [sys.set_int_max_str_digits], and the error of [int] on
    a literal of [n] digits, which is more. *)
Definition int_max_str_digits : nat := 4300.

Definition int_limit_error (n : nat) : exception :=
  Exception "ValueError"
    ("Exceeds the limit (4300 digits) for integer string conversion: "
     +:+ "value has " +:+ str (Z.of_nat n)
     +:+ " digits; use sys.set_int_max_str_digits() to increase the limit").

(** [int(text)] on a decimal literal.  The bot passes runs of digits only;
    the other literals that [int] accepts (sign, underscores, surrounding
    white space) are left out and answered like any malformed literal. *)
Definition int (l : list ascii) : M Z :=
  match l with
  | [] => raise (Exception "ValueError" "invalid literal for int() with base 10")
  | _ =>
      if forallb is_digit l
      then
        if int_max_str_digits <? length l
        then raise (int_limit_error (length l))
        else ret (digits_value l)
      else raise (Exception "ValueError" "invalid literal for int() with base 10")
  end.

Definition _parse_action (response : string) (legal_actions : list Z) : M Z :=
  (* Try to extract number from response *)
  let s := strip (chars response) in
  match search s action_pattern with
  | Some m =>
      match group1 s m with
      | Some digits =>
          let* action := int digits in
          if bool_decide (action ∈ legal_actions)
          then ret action
          else (* Parsing failed, choose random action *)
               rng_choice legal_actions
      | None =>
          raise (Exception "TypeError"
                   "int() argument must be a string, not 'NoneType'")
      end
  | None =>
      (* Parsing failed, choose random action *)
      rng_choice legal_actions
  end.

(** ** The turn: [step] *)

Definition max_retries : Z := 3.
(** [retry_delay = 1.0]: the seconds slept and the way the float prints. *)
Definition retry_delay : Z := 1.
Definition retry_delay_str : string := "1.0".
Definition call_timeout : Z := 120.

(** A usage dict is true when it is not [None] and not empty. *)
Definition truthy (usage : option (gmap string Z)) : bool :=
  match usage with
  | Some u => negb (bool_decide (u = ∅))
  | None => false
  end.

(** [usage.get(key, 0)]. *)
Definition usage_get (usage : option (gmap string Z)) (key : string) : Z :=
  match usage with
  | Some u => default 0%Z (u !! key)
  | None => 0%Z
  end.

Definition add_prompt_tokens (n : Z) (self : LLMBot) : LLMBot :=
  let t := _total_usage self in
  set_total_usage
    {| prompt_tokens := prompt_tokens t + n;
       completion_tokens := completion_tokens t;
       total_tokens := total_tokens t |} self.

Definition add_completion_tokens (n : Z) (self : LLMBot) : LLMBot :=
  let t := _total_usage self in
  set_total_usage
    {| prompt_tokens := prompt_tokens t;
       completion_tokens := completion_tokens t + n;
       total_tokens := total_tokens t |} self.

Definition add_total_tokens (n : Z) (self : LLMBot) : LLMBot :=
  let t := _total_usage self in
  set_total_usage
    {| prompt_tokens := prompt_tokens t;
       completion_tokens := completion_tokens t;
       total_tokens := total_tokens t + n |} self.

(** How the retry loop of [step] is left. *)
Inductive loop_exit : Type :=
| Broke (response : string) (usage : option (gmap string Z))  (* break *)
| Exhausted                          (* the range ran out: response is None *)
| ReturnedAction (action : Z).       (* return from inside the loop *)

(** [for attempt in range(max_retries): ...], over the attempts left.  The
    body is the [try] statement: the call, the two entries of the transcript
    and the additions to the totals are inside it, so that an [Exception]
    from any of them is handled; an exception that is not an [Exception]
    leaves the loop and [step]. *)
Fixpoint attempts (llm : llm_chat_fn) (state : State) (prompt : string)
    (range : list Z) : M loop_exit :=
  match range with
  | [] => ret Exhausted
  | attempt :: range' =>
      (* except concurrent.futures.TimeoutError: *)
      let except_TimeoutError : M loop_exit :=
        let error_msg :=
          "LLM call timeout after " +:+ str call_timeout +:+ "s" in
        if (attempt <? max_retries - 1)%Z
        then
          emit (Print ("LLM call timed out (attempt "
                       +:+ str (attempt + 1) +:+ "/" +:+ str max_retries
                       +:+ "), retrying in " +:+ retry_delay_str
                       +:+ "s..."));;
          emit (Sleep retry_delay);;
          attempts llm state prompt range'
        else
          emit (Print ("LLM call timed out after " +:+ str max_retries
                       +:+ " attempts, falling back to random action"));;
          modify (set_last_error
                    (Some {| err_prompt := prompt;
                             err_error := error_msg;
                             err_attempts := max_retries |}));;
          let* self := get in
          let legal_actions := legal_actions state (_player_id self) in
          let* action := rng_choice legal_actions in
          ret (ReturnedAction action) in
      (* except Exception as e: *)
      let except_Exception (e : exception) (traceback : string)
          : M loop_exit :=
        let error_msg :=
          exc_type e +:+ ": " +:+ exc_str e +:+ nl +:+ traceback in
        if (attempt <? max_retries - 1)%Z
        then
          emit (Print ("LLM call failed (attempt "
                       +:+ str (attempt + 1) +:+ "/" +:+ str max_retries
                       +:+ "): " +:+ exc_str e +:+ ", retrying in "
                       +:+ retry_delay_str +:+ "s..."));;
          emit (Sleep retry_delay);;
          attempts llm state prompt range'
        else
          emit (Print ("LLM call failed after " +:+ str max_retries
                       +:+ " attempts: " +:+ exc_str e
                       +:+ ", falling back to random action"));;
          modify (set_last_error
                    (Some {| err_prompt := prompt;
                             err_error := error_msg;
                             err_attempts := max_retries |}));;
          let* self := get in
          let legal_actions := legal_actions state (_player_id self) in
          let* action := rng_choice legal_actions in
          ret (ReturnedAction action) in
      (* try: *)
      emit (LLMCall prompt call_timeout);;
      match llm prompt attempt with
      | LLMReturns response usage =>
          modify (fun self =>
            set_conversation
              (_conversation self ++ [Message "user" prompt]) self);;
          modify (fun self =>
            set_conversation
              (_conversation self ++ [Message "assistant" response]) self);;
          (* Accumulate usage statistics *)
          (if truthy usage
           then
             modify (add_prompt_tokens (usage_get usage "prompt_tokens"));;
             modify (add_completion_tokens
                       (usage_get usage "completion_tokens"));;
             modify (add_total_tokens (usage_get usage "total_tokens"))
           else ret tt);;
          ret (Broke response usage)
      | LLMReturnsBadUsage response usage bad e traceback =>
          modify (fun self =>
            set_conversation
              (_conversation self ++ [Message "user" prompt]) self);;
          modify (fun self =>
            set_conversation
              (_conversation self ++ [Message "assistant" response]) self);;
          (* Accumulate usage statistics: the dict is not empty, and the
             additions are made up to the one that raises *)
          match bad with
          | PromptTokens => ret tt
          | CompletionTokens =>
              modify (add_prompt_tokens
                        (usage_get (Some usage) "prompt_tokens"))
          | TotalTokens =>
              modify (add_prompt_tokens
                        (usage_get (Some usage) "prompt_tokens"));;
              modify (add_completion_tokens
                        (usage_get (Some usage) "completion_tokens"))
          end;;
          except_Exception e traceback
      | LLMTimesOut => except_TimeoutError
      | LLMRaises e traceback => except_Exception e traceback
      | LLMAborts e => raise e
      end
  end.

Definition step (llm : llm_chat_fn) (state : State) : M Z :=
  (* 1. Generate prompt (state description + legal actions) *)
  let* self := get in
  let prompt := _generate_prompt self state in
  (* 2. Call LLM with retry mechanism *)
  let* exit := attempts llm state prompt (seqZ 0 max_retries) in
  match exit with
  | ReturnedAction action => ret action
  | Exhausted =>
      raise (Exception "AttributeError"
               "'NoneType' object has no attribute 'strip'")
  | Broke response usage =>
      (* 3. Parse action from response *)
      let* self := get in
      let legal_actions := legal_actions state (_player_id self) in
      let* action := _parse_action response legal_actions in
      (* 4. Record action in history *)
      modify (fun self =>
        set_action_history
          (_action_history self ++ [(_player_id self, action)]) self);;
      ret action
  end.

End Bot.

Arguments Run {RS A} output outcome final.
Arguments output {RS A} r.
Arguments outcome {RS A} r.
Arguments final {RS A} r.


(* ===================================================================== *)
(** * Definitions used by the statements *)
(* ===================================================================== *)

(** ** Integer tokens, as the specification words them *)

Module SpecParser.

(** The tokens of a text: its maximal runs of word characters.  [cur] holds
    the run being read, last character first. *)
Fixpoint tokens_from (cur l : list ascii) : list (list ascii) :=
  match l with
  | [] => match cur with [] => [] | _ => [rev cur] end
  | c :: l' =>
      if is_word c
      then tokens_from (c :: cur) l'
      else match cur with
           | [] => tokens_from [] l'
           | _ => rev cur :: tokens_from [] l'
           end
  end.

Definition tokens (l : list ascii) : list (list ascii) := tokens_from [] l.

(** The first standalone integer token: the first token that is an integer,
    so neither a part of a larger identifier nor of a larger number. *)
Definition first_standalone_integer (l : list ascii)
    : option (list ascii) :=
  List.find (forallb is_digit) (tokens l).

End SpecParser.

(** ** Proof-side measures on texts *)

(** The number of digits a text starts with. *)
Fixpoint digit_run (l : list ascii) : nat :=
  match l with
  | c :: l' => if is_digit c then S (digit_run l') else 0
  | [] => 0
  end.

(** [descend k g i n] tries [k] at the positions [i + n], ..., [i + 1], in
    this order. *)
Fixpoint descend (k : continuation) (g : option (nat * nat)) (i n : nat)
    : option match_object :=
  match n with
  | O => None
  | S n' =>
      match descend k g (S i) n' with
      | Some m => Some m
      | None => k (S i) g
      end
  end.

(** The search for [\b(\d+)\b] read off the text: [prev] tells whether the
    character before [l] is a word character. *)
Fixpoint scan (prev : bool) (l : list ascii) : option (list ascii) :=
  match l with
  | [] => None
  | c :: l' =>
      let n := digit_run l in
      if negb prev && (0 <? n) && negb (word_at l n)
      then Some (take n l)
      else scan (is_word c) l'
  end.

(** The number of word characters a text starts with. *)
Fixpoint word_run (l : list ascii) : nat :=
  match l with
  | c :: l' => if is_word c then S (word_run l') else 0
  | [] => 0
  end.

(** The digits that [re.search] finds in a text, if any. *)
Definition found_digits (s : list ascii) : option (list ascii) :=
  match search s action_pattern with
  | Some m => group1 s m
  | None => None
  end.

(** ** Vocabulary for the turns *)

(** The call of an attempt fails when it times out or raises an
    [Exception]. *)
Definition failed (o : llm_outcome) : bool :=
  match o with
  | LLMTimesOut | LLMRaises _ _ => true
  | LLMReturns _ _ | LLMReturnsBadUsage _ _ _ _ _ | LLMAborts _ => false
  end.

(** An attempt is handled, by one of the two [except] clauses, when its
    call fails or when the additions to the totals raise. *)
Definition handled (o : llm_outcome) : bool :=
  match o with
  | LLMTimesOut | LLMRaises _ _ | LLMReturnsBadUsage _ _ _ _ _ => true
  | LLMReturns _ _ | LLMAborts _ => false
  end.

(** The error description that [step] builds for a handled attempt. *)
Definition failure_description (o : llm_outcome) : string :=
  match o with
  | LLMReturns _ _ | LLMAborts _ => EmptyString
  | LLMTimesOut => "LLM call timeout after 120s"
  | LLMRaises e traceback | LLMReturnsBadUsage _ _ _ e traceback =>
      exc_type e +:+ ": " +:+ exc_str e +:+ nl +:+ traceback
  end.

(** The prompts of the calls of the LLM function among the events of a
    turn, and the sleeps among them. *)
Definition llm_calls (out : list event) : list string :=
  omap (fun e => match e with LLMCall p _ => Some p | _ => None end) out.

Definition sleeps (out : list event) : list Z :=
  omap (fun e => match e with Sleep d => Some d | _ => None end) out.

(** The calls and the sleeps of a turn, in the order in which they happen. *)
Definition calls_and_sleeps (out : list event) : list event :=
  omap (fun e => match e with Print _ => None | _ => Some e end) out.

(** [n] calls with the prompt, and a sleep between two of them. *)
Fixpoint retry_schedule (prompt : string) (n : nat) : list event :=
  match n with
  | 0 => []
  | 1 => [LLMCall prompt call_timeout]
  | S n' =>
      LLMCall prompt call_timeout :: Sleep retry_delay
      :: retry_schedule prompt n'
  end.

(** A usage record holds token counts: its fields are not negative. *)
Definition token_counts (usage : option (gmap string Z)) : Prop :=
  forall u key n, usage = Some u -> u !! key = Some n -> (0 <= n)%Z.

Section TurnVocabulary.
Context {RS : RandomSource}.

(** The bot after a call that returned [(response, usage)]: the exchange
    is in the transcript and the usage is added to the totals. *)
Definition record_exchange (prompt response : string)
    (usage : option (gmap string Z)) (self : LLMBot) : LLMBot :=
  let self :=
    set_conversation
      (_conversation self ++ [Message "user" prompt]) self in
  let self :=
    set_conversation
      (_conversation self ++ [Message "assistant" response]) self in
  if truthy usage
  then add_total_tokens (usage_get usage "total_tokens")
         (add_completion_tokens (usage_get usage "completion_tokens")
            (add_prompt_tokens (usage_get usage "prompt_tokens") self))
  else self.

(** [out], then the run [r]. *)
Definition prepend {A : Type} (out : list event) (r : run A) : run A :=
  Run (out ++ output r) (outcome r) (final r).

(** The run of [_parse_action], followed by the recording of the action
    in the history when there is one. *)
Definition record_action (r : run Z) : run Z :=
  match outcome r with
  | Returned action =>
      Run (output r) (Returned action)
          (set_action_history
             (_action_history (final r)
              ++ [(_player_id (final r), action)]) (final r))
  | Raised e => r
  end.

(** The turn's call succeeds at attempt [k] with [(response, usage)]: the
    attempts before it fail. *)
Definition succeeds_at (llm : llm_chat_fn) (prompt : string) (k : Z)
    (response : string) (usage : option (gmap string Z)) : Prop :=
  (0 <= k < max_retries)%Z /\
  (forall j, (0 <= j < k)%Z -> failed (llm prompt j) = true) /\
  llm prompt k = LLMReturns response usage.

(** Every attempt of the turn fails. *)
Definition all_fail (llm : llm_chat_fn) (prompt : string) : Prop :=
  forall j, (0 <= j < max_retries)%Z -> failed (llm prompt j) = true.

(** Each of the three counters of [t'] is at least the one of [t]. *)
Definition totals_le (t t' : usage_totals) : Prop :=
  (prompt_tokens t <= prompt_tokens t')%Z /\
  (completion_tokens t <= completion_tokens t')%Z /\
  (total_tokens t <= total_tokens t')%Z.

(** The injected function reports token counts: the numbers of the usage
    dicts that it returns are not negative. *)
Definition reports_token_counts (llm : llm_chat_fn) : Prop :=
  forall prompt attempt,
    match llm prompt attempt with
    | LLMReturns _ usage => token_counts usage
    | LLMReturnsBadUsage _ usage _ _ _ => token_counts (Some usage)
    | _ => True
    end.

(** No call of the turn ends in an exception that is not an [Exception]. *)
Definition never_aborts (llm : llm_chat_fn) (prompt : string) : Prop :=
  forall attempt e, llm prompt attempt <> LLMAborts e.

(** [int] accepts the first standalone integer of the response, if there is
    one: it has no more digits than the limit. *)
Definition int_accepts (response : string) : Prop :=
  match SpecParser.first_standalone_integer (chars response) with
  | Some token => length token <= int_max_str_digits
  | None => True
  end.

(** [int] accepts what the calls of the turn return. *)
Definition answers_fit (llm : llm_chat_fn) (prompt : string) : Prop :=
  forall attempt response usage,
    llm prompt attempt = LLMReturns response usage -> int_accepts response.

(** The response names no legal action: it has no standalone integer
    token, or the first one is not legal. *)
Definition names_no_legal_action (response : string) (legal : list Z)
    : Prop :=
  match SpecParser.first_standalone_integer (chars response) with
  | Some d => digits_value d ∉ legal
  | None => True
  end.

(** The heading that opens the rules section of the Liar's Dice prompt. *)
Definition rules_heading : string := "=== GAME RULES ===".

(** The bot after an attempt that was handled: as it was when the call
    failed; with the exchange in the transcript and the additions made
    before the one that raised, when the additions to the totals raised. *)
Definition after_failure (prompt : string) (o : llm_outcome)
    (self : LLMBot) : LLMBot :=
  match o with
  | LLMReturnsBadUsage response usage bad _ _ =>
      let self :=
        set_conversation
          (_conversation self ++ [Message "user" prompt]) self in
      let self :=
        set_conversation
          (_conversation self ++ [Message "assistant" response]) self in
      match bad with
      | PromptTokens => self
      | CompletionTokens =>
          add_prompt_tokens (usage_get (Some usage) "prompt_tokens") self
      | TotalTokens =>
          add_completion_tokens (usage_get (Some usage) "completion_tokens")
            (add_prompt_tokens (usage_get (Some usage) "prompt_tokens") self)
      end
  | _ => self
  end.

(** Every attempt of the turn is handled. *)
Definition all_handled (llm : llm_chat_fn) (prompt : string) : Prop :=
  forall j, (0 <= j < max_retries)%Z -> handled (llm prompt j) = true.

(** What a handled attempt leaves in the transcript: the exchange, when the
    call returned. *)
Definition kept_exchange (prompt : string) (o : llm_outcome)
    : list message :=
  match o with
  | LLMReturnsBadUsage response _ _ _ _ =>
      [Message "user" prompt; Message "assistant" response]
  | _ => []
  end.

(** The error record of a turn whose last attempt was handled. *)
Definition terminal_error (prompt : string) (o : llm_outcome)
    : error_record :=
  {| err_prompt := prompt;
     err_error := failure_description o;
     err_attempts := max_retries |}.

(** What [step] does once the loop is left. *)
Definition after_loop (state : State) (exit : loop_exit) : M Z :=
  match exit with
  | ReturnedAction action => ret action
  | Exhausted =>
      raise (Exception "AttributeError"
               "'NoneType' object has no attribute 'strip'")
  | Broke response usage =>
      bind get (fun self =>
        bind (_parse_action response (legal_actions state (_player_id self)))
          (fun action =>
             bind (modify (fun self =>
                     set_action_history
                       (_action_history self ++ [(_player_id self, action)])
                       self))
                  (fun _ => ret action)))
  end.

(** A turn from the attempts of [range] on. *)
Definition turn_from (llm : llm_chat_fn) (state : State) (prompt : string)
    (range : list Z) : M Z :=
  bind (attempts llm state prompt range) (after_loop state).

(** The run of a turn from an attempt on whose call does [o]; [retry]
    tells whether attempts are left, [line] is the line printed if the
    attempt is handled, and [rest] is the turn from the next attempt on. *)
Definition one_attempt (state : State) (prompt : string) (o : llm_outcome)
    (retry : bool) (line : string) (rest : M Z) (self : LLMBot) : run Z :=
  prepend [LLMCall prompt call_timeout]
    match o with
    | LLMReturns response usage =>
        record_action
          (_parse_action response (legal_actions state (_player_id self))
             (record_exchange prompt response usage self))
    | LLMAborts e => Run [] (Raised e) self
    | _ =>
        let self1 := after_failure prompt o self in
        if retry
        then prepend [Print line; Sleep retry_delay] (rest self1)
        else prepend [Print line]
               (rng_choice (legal_actions state (_player_id self))
                  (set_last_error (Some (terminal_error prompt o)) self1))
    end.

End TurnVocabulary.

(** ** A small game of Liar's Dice, for running the model *)

Definition demo_game : Game :=
  {| short_name := "liars_dice"; num_players := 2 |}.

(** The first player holds 1, 1 and 3; nobody has bid. *)
Definition opening_state : State :=
  {| state_str := "113";
     legal_actions := fun _ => [1; 2; 3]%Z;
     action_to_string := fun _ action => "bid " +:+ str action |}.

(** The same dice after the bids 1-2 and 2-3. *)
Definition later_state : State :=
  {| state_str := "113 1-2 2-3";
     legal_actions := fun _ => [4; 5; 6]%Z;
     action_to_string := fun _ action => "bid " +:+ str action |}.

(** A state in which the engine offers no action. *)
Definition stuck_state : State :=
  {| state_str := "113";
     legal_actions := fun _ => [];
     action_to_string := fun _ action => "bid " +:+ str action |}.

Definition demo_bot : @LLMBot lcg := @__init__ lcg demo_game 0%Z 42.

Definition usage_of (p c t : Z) : option (gmap string Z) :=
  Some (<["prompt_tokens" := p]>
          (<["completion_tokens" := c]> {["total_tokens" := t]})).

Definition llm_answers (response : string) (usage : option (gmap string Z))
    : llm_chat_fn :=
  fun _ _ => LLMReturns response usage.

Definition llm_times_out : llm_chat_fn := fun _ _ => LLMTimesOut.


(** Every call is cancelled: [asyncio.CancelledError] is not an
    [Exception]. *)
Definition cancelled : exception := Exception "CancelledError" EmptyString.

Definition llm_cancelled : llm_chat_fn := fun _ _ => LLMAborts cancelled.



(** Every call returns the answer 2 and a usage dict whose completion
    count is [None]. *)
Definition llm_bad_usage : llm_chat_fn :=
  fun _ _ =>
    LLMReturnsBadUsage "2" {["prompt_tokens" := 10%Z]} CompletionTokens
      (Exception "TypeError"
         "unsupported operand type(s) for +=: 'int' and 'NoneType'")
      "Traceback (most recent call last): ...".

(** An answer of [n] digits 1. *)
Definition ones (n : nat) : string := text (replicate n "1"%char).

(** The bot in the course of an episode: the other player has played, and
    the bot has taken a turn whose call succeeded. *)
Definition played_bot : @LLMBot lcg :=
  final (step (llm_answers "2" (usage_of 10 5 15)) opening_state
           (final (inform_action opening_state 1 7 demo_bot))).

(** ** Vocabulary for the further properties *)

(** The transcript is made of exchanges: an entry of the user, then the
    entry of the assistant. *)
Fixpoint paired (conversation : list message) : bool :=
  match conversation with
  | [] => true
  | [_] => false
  | u :: a :: rest =>
      String.eqb (role u) "user" && String.eqb (role a) "assistant"
      && paired rest
  end.

(** White space only. *)
Definition blank (s : string) : bool := forallb isspace (chars s).


(** A game without a prompt of its own, and a bot that plays it second. *)
Definition other_game : Game :=
  {| short_name := "tic_tac_toe"; num_players := 2 |}.

Definition other_state : State :=
  {| state_str := "x.. .o. ...";
     legal_actions := fun _ => [1; 2; 3; 5; 6; 7; 8]%Z;
     action_to_string := fun _ action => "x(" +:+ str action +:+ ")" |}.

Definition other_bot : @LLMBot lcg := @__init__ lcg other_game 1%Z 7.

(** The first call times out, the second one answers. *)
Definition llm_recovers (response : string) : llm_chat_fn :=
  fun _ attempt =>
    if (attempt <? 1)%Z then LLMTimesOut else LLMReturns response None.

(** The opening state once the other player has bid 1-2, the bot being
    offered the same actions. *)
Definition replied_state : State :=
  {| state_str := "113 1-2";
     legal_actions := fun _ => [1; 2; 3]%Z;
     action_to_string := fun _ action => "bid " +:+ str action |}.

(** A state whose text does not start with the digits of the dice. *)
Definition chance_state : State :=
  {| state_str := "- chance node";
     legal_actions := fun _ => [0; 1]%Z;
     action_to_string := fun _ action => "roll " +:+ str action |}.

(* ===================================================================== *)
(** * The matcher *)
(* ===================================================================== *)

Section MatcherFacts.
Variable s : list ascii.

Lemma digit_run_le (l : list ascii) : digit_run l <= length l.
Proof.
  induction l as [|c l IH]; simpl; [lia|].
  destruct (is_digit c); simpl; lia.
Qed.

Lemma digit_run_lookup (l : list ascii) (p : nat) :
  p < digit_run l -> exists c, l !! p = Some c /\ is_digit c = true.
Proof.
  revert p; induction l as [|c l IH]; simpl; intros p Hp; [lia|].
  destruct (is_digit c) eqn:Hc; [|lia].
  destruct p as [|p]; simpl.
  - eauto.
  - apply IH. lia.
Qed.

Lemma digit_run_stop (l : list ascii) (c : ascii) :
  l !! digit_run l = Some c -> is_digit c = false.
Proof.
  induction l as [|a l IH]; simpl; [discriminate|].
  destruct (is_digit a) eqn:Ha; simpl; [exact IH|].
  intros [= <-]. exact Ha.
Qed.

Lemma digit_run_drop (i : nat) :
  digit_run (drop i s) =
  match s !! i with
  | Some c => if is_digit c then S (digit_run (drop (S i) s)) else 0
  | None => 0
  end.
Proof.
  destruct (s !! i) as [c|] eqn:Hi.
  - rewrite (drop_S _ _ _ Hi). reflexivity.
  - rewrite drop_ge; [reflexivity|]. by apply lookup_ge_None.
Qed.

(** The loop of [\d+] tries the continuation from the end of the run of
    digits downwards. *)
Lemma iterate_digits (k : continuation) (g : option (nat * nat))
    (fuel i : nat) :
  digit_run (drop i s) < fuel ->
  iterate (rmatch s Digit) k fuel i g
  = descend k g i (digit_run (drop i s)).
Proof.
  revert i; induction fuel as [|fuel IH]; intros i Hf; [lia|].
  simpl. rewrite digit_run_drop in Hf |- *.
  destruct (s !! i) as [c|] eqn:Hi; [|reflexivity].
  destruct (is_digit c) eqn:Hc; [|reflexivity].
  assert (Hlt : (i <? S i) = true) by (apply Nat.ltb_lt; lia).
  rewrite Hlt. simpl. rewrite IH by lia. reflexivity.
Qed.

Lemma digit_is_word (c : ascii) : is_digit c = true -> is_word c = true.
Proof. unfold is_word. intros ->. reflexivity. Qed.

Lemma word_at_digit (p : nat) (c : ascii) :
  s !! p = Some c -> is_digit c = true -> word_at s p = true.
Proof. unfold word_at. intros -> H. by apply digit_is_word. Qed.

(** No boundary between two digits. *)
Lemma no_boundary_in_run (p : nat) (c c' : ascii) :
  s !! p = Some c -> is_digit c = true ->
  s !! S p = Some c' -> is_digit c' = true ->
  at_boundary s (S p) = false.
Proof.
  intros Hp Hc Hp' Hc'. unfold at_boundary.
  rewrite (word_at_digit _ _ Hp Hc), (word_at_digit _ _ Hp' Hc').
  reflexivity.
Qed.

(** With a boundary required after the digits, only the whole run can
    match. *)
Lemma descend_boundary (i0 : nat) (g : option (nat * nat)) (n i : nat) :
  (forall p, i <= p < i + n ->
             exists c, s !! p = Some c /\ is_digit c = true) ->
  descend (fun j _ => if at_boundary s j
                      then Some (MatchObject i0 j (Some (i0, j)))
                      else None) g i n
  = if (0 <? n) && at_boundary s (i + n)
    then Some (MatchObject i0 (i + n) (Some (i0, i + n)))
    else None.
Proof.
  revert i; induction n as [|n IH]; intros i Hrun; [reflexivity|].
  cbn [descend]. rewrite IH by (intros p Hp; apply Hrun; lia).
  replace (i + S n) with (S i + n) by lia.
  assert (H1 : (0 <? S n) = true) by (apply Nat.ltb_lt; lia).
  rewrite H1. cbn [andb].
  destruct (Nat.eq_dec n 0) as [->|Hn].
  - cbn [Nat.ltb Nat.leb andb]. rewrite Nat.add_0_r. reflexivity.
  - assert (H2 : (0 <? n) = true) by (apply Nat.ltb_lt; lia).
    rewrite H2. cbn [andb].
    destruct (at_boundary s (S i + n)); [reflexivity|].
    destruct (Hrun i) as (c & Hc & Hd); [lia|].
    destruct (Hrun (S i)) as (c' & Hc' & Hd'); [lia|].
    by rewrite (no_boundary_in_run _ _ _ Hc Hd Hc' Hd').
Qed.

(** The matches of [\b(\d+)\b] at a given position. *)
Lemma match_at_action_pattern (i : nat) :
  match_at s action_pattern i
  = let n := digit_run (drop i s) in
    if at_boundary s i && (0 <? n) && at_boundary s (i + n)
    then Some (MatchObject i (i + n) (Some (i, i + n)))
    else None.
Proof.
  unfold match_at, action_pattern. cbn [rmatch].
  destruct (at_boundary s i); [|reflexivity]. cbn [andb].
  rewrite iterate_digits.
  2:{ pose proof (digit_run_le (drop i s)) as H.
      rewrite length_drop in H. lia. }
  apply descend_boundary.
  intros p Hp.
  destruct (digit_run_lookup (drop i s) (p - i)) as (c & Hc & Hd); [lia|].
  rewrite lookup_drop in Hc. replace (i + (p - i)) with p in Hc by lia.
  eauto.
Qed.

End MatcherFacts.

Section SearchFacts.

Lemma word_at_app_r (pre l : list ascii) (n : nat) :
  word_at (pre ++ l) (length pre + n) = word_at l n.
Proof.
  unfold word_at. rewrite lookup_app_r by lia.
  replace (length pre + n - length pre) with n by lia. reflexivity.
Qed.

Lemma digit_run_word (l : list ascii) (p : nat) :
  p < digit_run l -> word_at l p = true.
Proof.
  intros Hp. destruct (digit_run_lookup l p Hp) as (c & Hc & Hd).
  by apply (word_at_digit l p c).
Qed.

(** What [match_at] decides at the position where [l] starts. *)
Lemma match_at_suffix (pre l : list ascii) (prev : bool) :
  prev = match length pre with
         | O => false
         | S p => word_at (pre ++ l) p
         end ->
  match match_at (pre ++ l) action_pattern (length pre) with
  | Some m => group1 (pre ++ l) m
  | None => None
  end
  = let n := digit_run l in
    if negb prev && (0 <? n) && negb (word_at l n)
    then Some (take n l)
    else None.
Proof.
  intros Hprev. rewrite match_at_action_pattern.
  rewrite drop_app_length. cbv zeta.
  set (n := digit_run l).
  destruct (0 <? n) eqn:Hn.
  2:{ rewrite !andb_false_r. reflexivity. }
  apply Nat.ltb_lt in Hn.
  assert (Hw : forall p, p < n -> word_at l p = true).
  { intros p Hp. by apply digit_run_word. }
  assert (H0 : word_at (pre ++ l) (length pre) = true).
  { rewrite <- (Nat.add_0_r (length pre)), word_at_app_r.
    by apply Hw. }
  assert (Hb : at_boundary (pre ++ l) (length pre) = negb prev).
  { unfold at_boundary. rewrite H0, Hprev.
    destruct (length pre); [reflexivity|]. apply xorb_true_r. }
  assert (He : at_boundary (pre ++ l) (length pre + n)
               = negb (word_at l n)).
  { unfold at_boundary. rewrite word_at_app_r.
    destruct n as [|n']; [lia|].
    replace (length pre + S n') with (S (length pre + n')) by lia.
    rewrite word_at_app_r, Hw by lia.
    reflexivity. }
  rewrite Hb, He. rewrite !andb_true_r.
  destruct (negb prev && negb (word_at l n)); [|reflexivity].
  unfold group1. cbn [m_group].
  replace (length pre + n - length pre) with n by lia.
  rewrite drop_app_length. reflexivity.
Qed.

Lemma search_from_scan (l pre : list ascii) (prev : bool) :
  prev = match length pre with
         | O => false
         | S p => word_at (pre ++ l) p
         end ->
  match search_from (pre ++ l) action_pattern (S (length l)) (length pre) with
  | Some m => group1 (pre ++ l) m
  | None => None
  end = scan prev l.
Proof.
  revert pre prev; induction l as [|c l IH]; intros pre prev Hprev.
  - cbn [search_from length scan].
    pose proof (match_at_suffix pre [] prev Hprev) as H.
    cbv zeta in H. cbn [digit_run] in H.
    rewrite andb_false_r in H. cbn [andb] in H.
    destruct (match_at (pre ++ []) action_pattern (length pre)); exact H.
  - cbn [search_from length].
    pose proof (match_at_suffix pre (c :: l) prev Hprev) as H.
    cbv zeta in H. cbn [scan].
    destruct (negb prev && (0 <? digit_run (c :: l))
              && negb (word_at (c :: l) (digit_run (c :: l)))) eqn:Hcond.
    + destruct (match_at (pre ++ c :: l) action_pattern (length pre));
        [exact H|discriminate].
    + destruct (match_at (pre ++ c :: l) action_pattern (length pre))
        as [m|] eqn:Hm.
      * (* the match object exists but its group is missing: impossible *)
        rewrite match_at_action_pattern in Hm. cbv zeta in Hm.
        destruct (at_boundary (pre ++ c :: l) (length pre)
                  && (0 <? digit_run (drop (length pre) (pre ++ c :: l)))
                  && at_boundary (pre ++ c :: l)
                       (length pre
                        + digit_run (drop (length pre) (pre ++ c :: l))));
          [|discriminate].
        injection Hm as <-. unfold group1 in H. cbn [m_group] in H.
        discriminate.
      * specialize (IH (pre ++ [c]) (is_word c)).
        rewrite <- app_assoc in IH. cbn [app] in IH.
        rewrite length_app in IH. cbn [length] in IH.
        replace (length pre + 1) with (S (length pre)) in IH by lia.
        apply IH.
        unfold word_at. rewrite lookup_app_r by lia.
        rewrite Nat.sub_diag. reflexivity.
Qed.

(** [re.search] finds what [scan] reads off the text. *)
Lemma found_digits_scan (s : list ascii) : found_digits s = scan false s.
Proof.
  unfold found_digits, search.
  exact (search_from_scan s [] false eq_refl).
Qed.

End SearchFacts.

(* ===================================================================== *)
(** * Tokens *)
(* ===================================================================== *)

Section TokenFacts.
Import SpecParser.

Lemma space_not_word (c : ascii) : isspace c = true -> is_word c = false.
Proof.
  destruct c as [b0 b1 b2 b3 b4 b5 b6 b7].
  destruct b0, b1, b2, b3, b4, b5, b6, b7; vm_compute; congruence.
Qed.

Lemma not_word_not_digit (c : ascii) : is_word c = false -> is_digit c = false.
Proof.
  intros H. destruct (is_digit c) eqn:Hd; [|reflexivity].
  apply digit_is_word in Hd. congruence.
Qed.

Lemma tokens_from_words (w cur l : list ascii) :
  forallb is_word w = true ->
  tokens_from cur (w ++ l) = tokens_from (rev w ++ cur) l.
Proof.
  revert cur; induction w as [|c w IH]; intros cur Hw; [reflexivity|].
  cbn [forallb] in Hw. apply andb_true_iff in Hw as [Hc Hw].
  cbn [app tokens_from rev]. rewrite Hc, IH by exact Hw.
  rewrite <- app_assoc. reflexivity.
Qed.

Lemma tokens_from_stop (cur l : list ascii) :
  cur <> [] -> word_at l 0 = false ->
  tokens_from cur l = rev cur :: tokens_from [] l.
Proof.
  intros Hcur Hl. destruct l as [|c l].
  - destruct cur; [congruence|reflexivity].
  - unfold word_at in Hl. cbn in Hl. cbn [tokens_from]. rewrite Hl.
    destruct cur; [congruence|reflexivity].
Qed.

Lemma word_run_le (l : list ascii) : word_run l <= length l.
Proof.
  induction l as [|c l IH]; cbn; [lia|]. destruct (is_word c); cbn; lia.
Qed.

Lemma word_run_take (l : list ascii) :
  forallb is_word (take (word_run l) l) = true.
Proof.
  induction l as [|c l IH]; cbn; [reflexivity|].
  destruct (is_word c) eqn:Hc; cbn; [|reflexivity].
  rewrite Hc. exact IH.
Qed.

Lemma word_run_stop (l : list ascii) : word_at l (word_run l) = false.
Proof.
  induction l as [|c l IH]; cbn; [reflexivity|].
  destruct (is_word c) eqn:Hc; [exact IH|].
  unfold word_at. cbn. exact Hc.
Qed.

Lemma word_run_lt (l : list ascii) (p : nat) :
  p < word_run l -> word_at l p = true.
Proof.
  revert p; induction l as [|c l IH]; cbn; intros p Hp; [lia|].
  destruct (is_word c) eqn:Hc; [|lia].
  destruct p as [|p]; [unfold word_at; cbn; exact Hc|].
  apply IH. lia.
Qed.

Lemma digit_run_le_word_run (l : list ascii) : digit_run l <= word_run l.
Proof.
  induction l as [|c l IH]; cbn; [lia|].
  destruct (is_digit c) eqn:Hd.
  - rewrite (digit_is_word _ Hd). lia.
  - lia.
Qed.

Lemma digit_run_take (l : list ascii) :
  forallb is_digit (take (digit_run l) l) = true.
Proof.
  induction l as [|c l IH]; cbn; [reflexivity|].
  destruct (is_digit c) eqn:Hc; cbn; [|reflexivity].
  rewrite Hc. exact IH.
Qed.

Lemma digits_take_le (l : list ascii) (w : nat) :
  w <= length l -> forallb is_digit (take w l) = true -> w <= digit_run l.
Proof.
  revert w; induction l as [|c l IH]; intros w Hw Hall.
  - cbn in Hw. lia.
  - destruct w as [|w]; [lia|].
    cbn in Hall, Hw |- *. apply andb_true_iff in Hall as [Hc Hall].
    rewrite Hc. assert (w <= digit_run l) by (apply IH; [lia|exact Hall]).
    lia.
Qed.

(** The tokens of a text that starts with a word character: the run of
    word characters, then the tokens of the rest. *)
Lemma tokens_word_run (l : list ascii) :
  0 < word_run l ->
  tokens l = take (word_run l) l :: tokens (drop (word_run l) l).
Proof.
  intros Hw. unfold tokens.
  rewrite <- (take_drop (word_run l) l) at 1.
  rewrite tokens_from_words by apply word_run_take.
  rewrite app_nil_r, tokens_from_stop.
  - rewrite rev_involutive. reflexivity.
  - intros H. apply (f_equal (@length ascii)) in H.
    rewrite length_rev, length_take in H. cbn in H.
    pose proof (word_run_le l). lia.
  - unfold word_at. rewrite lookup_drop, Nat.add_0_r.
    exact (word_run_stop l).
Qed.

(** Inside a token nothing matches: the search resumes after it. *)
Lemma scan_inside (l : list ascii) :
  scan true l = scan false (drop (word_run l) l).
Proof.
  induction l as [|c l IH]; [reflexivity|].
  cbn [scan negb andb word_run].
  destruct (is_word c) eqn:Hc.
  - exact IH.
  - cbn [drop scan digit_run]. rewrite (not_word_not_digit _ Hc).
    rewrite andb_false_r. cbn [andb]. rewrite Hc. reflexivity.
Qed.

(** At the start of a token: the token is found when it is an integer,
    and skipped otherwise. *)
Lemma scan_token (l : list ascii) :
  0 < word_run l ->
  scan false l =
  if forallb is_digit (take (word_run l) l)
  then Some (take (word_run l) l)
  else scan false (drop (word_run l) l).
Proof.
  intros Hw. destruct l as [|c l]; [cbn in Hw; lia|].
  pose proof (digit_run_le_word_run (c :: l)) as Hle.
  pose proof (word_run_le (c :: l)) as Hlen.
  set (t := c :: l) in *.
  assert (Hscan : scan false t =
                  if (0 <? digit_run t) && negb (word_at t (digit_run t))
                  then Some (take (digit_run t) t)
                  else scan true l).
  { unfold t at 1. cbn [scan negb andb]. fold t.
    assert (Hc : is_word c = true).
    { unfold t in Hw. cbn in Hw. destruct (is_word c); [reflexivity|lia]. }
    rewrite Hc. reflexivity. }
  assert (Hin : scan true l = scan false (drop (word_run t) t)).
  { rewrite scan_inside. unfold t. cbn [word_run].
    unfold t in Hw. cbn [word_run] in Hw.
    destruct (is_word c); [reflexivity|lia]. }
  rewrite Hscan, Hin.
  destruct (Nat.eq_dec (digit_run t) (word_run t)) as [Heq|Hne].
  - rewrite <- Heq at 1 2. rewrite digit_run_take.
    rewrite Heq, word_run_stop.
    assert (H0 : (0 <? word_run t) = true) by (apply Nat.ltb_lt; lia).
    rewrite H0. reflexivity.
  - assert (Hnot : forallb is_digit (take (word_run t) t) = false).
    { destruct (forallb is_digit (take (word_run t) t)) eqn:Hall;
        [|reflexivity].
      apply digits_take_le in Hall; [lia|exact Hlen]. }
    rewrite Hnot, word_run_lt by lia.
    rewrite andb_false_r. reflexivity.
Qed.

(** [scan] finds the first token that is an integer. *)
Lemma scan_first_standalone_integer (l : list ascii) :
  scan false l = first_standalone_integer l.
Proof.
  unfold first_standalone_integer.
  remember (length l) as n eqn:Hn. revert l Hn.
  induction n as [n IH] using lt_wf_ind. intros l Hn.
  destruct (Nat.eq_dec (word_run l) 0) as [H0|H0].
  - destruct l as [|c l]; [reflexivity|].
    cbn [word_run] in H0. destruct (is_word c) eqn:Hc; [lia|].
    unfold tokens. cbn [tokens_from scan negb andb digit_run].
    rewrite Hc, (not_word_not_digit _ Hc). cbn [Nat.ltb Nat.leb andb].
    apply (IH (length l)); [subst n; cbn; lia|reflexivity].
  - rewrite scan_token, tokens_word_run by lia. cbn [find].
    destruct (forallb is_digit (take (word_run l) l)); [reflexivity|].
    apply (IH (length (drop (word_run l) l))); [|reflexivity].
    rewrite length_drop. subst n.
    destruct l; [cbn in H0; lia|cbn [length]; lia].
Qed.

(** ** White space around the text does not change its tokens *)

Lemma lstrip_spec (l : list ascii) :
  exists ws, Forall (fun c => isspace c = true) ws /\ l = ws ++ lstrip l.
Proof.
  induction l as [|c l (ws & Hws & Hl)].
  - exists []. split; [constructor|reflexivity].
  - cbn [lstrip]. destruct (isspace c) eqn:Hc.
    + exists (c :: ws). split; [by constructor|]. cbn. by f_equal.
    + exists []. split; [constructor|reflexivity].
Qed.

Lemma rstrip_spec (l : list ascii) :
  exists ws, Forall (fun c => isspace c = true) ws /\ l = rstrip l ++ ws.
Proof.
  destruct (lstrip_spec (rev l)) as (ws & Hws & Hl).
  exists (rev ws). split; [by apply Forall_rev|].
  unfold rstrip. rewrite <- rev_app_distr, <- Hl. by rewrite rev_involutive.
Qed.

Lemma tokens_leading_space (ws l : list ascii) :
  Forall (fun c => isspace c = true) ws -> tokens (ws ++ l) = tokens l.
Proof.
  induction 1 as [|c ws Hc _ IH]; [reflexivity|].
  unfold tokens in *. cbn [app tokens_from].
  by rewrite (space_not_word _ Hc).
Qed.

Lemma tokens_from_trailing_space (ws l cur : list ascii) :
  Forall (fun c => isspace c = true) ws ->
  tokens_from cur (l ++ ws) = tokens_from cur l.
Proof.
  intros Hws. revert cur; induction l as [|c l IH]; intros cur.
  - cbn [app]. revert cur. induction Hws as [|c ws Hc _ IH]; intros cur;
      [reflexivity|].
    cbn [tokens_from]. rewrite (space_not_word _ Hc), (IH []).
    reflexivity.
  - cbn [app tokens_from]. rewrite !IH. reflexivity.
Qed.

Lemma tokens_strip (l : list ascii) : tokens (strip l) = tokens l.
Proof.
  unfold strip.
  destruct (lstrip_spec l) as (ws & Hws & Hl).
  destruct (rstrip_spec (lstrip l)) as (ws' & Hws' & Hl').
  rewrite Hl at 2. rewrite tokens_leading_space by exact Hws.
  rewrite Hl' at 2. unfold tokens.
  by rewrite tokens_from_trailing_space.
Qed.

(** [re.search] on the stripped text finds the first standalone integer
    token of the text. *)
Lemma found_digits_strip (l : list ascii) :
  found_digits (strip l) = first_standalone_integer l.
Proof.
  rewrite found_digits_scan, scan_first_standalone_integer.
  unfold first_standalone_integer. by rewrite tokens_strip.
Qed.

Lemma first_standalone_integer_digits (l d : list ascii) :
  first_standalone_integer l = Some d ->
  d <> [] /\ forallb is_digit d = true.
Proof.
  unfold first_standalone_integer. intros H.
  apply find_some in H as [Hin Hd]. split; [|exact Hd].
  intros ->. clear Hd. unfold tokens in Hin.
  assert (Hne : forall (a : ascii) cur, rev (a :: cur) <> []).
  { intros a cur H. apply (f_equal (@length ascii)) in H.
    rewrite length_rev in H. discriminate. }
  assert (Hgen : forall l cur, In [] (tokens_from cur l) -> False).
  { clear -Hne. induction l as [|c l IH]; intros cur; cbn [tokens_from].
    - destruct cur as [|a cur]; cbn [In]; [tauto|].
      intros [H|[]]. by apply Hne in H.
    - destruct (is_word c); [apply IH|].
      destruct cur as [|a cur]; [apply IH|].
      cbn [In]. intros [H|H]; [by apply Hne in H|by apply IH in H]. }
  exact (Hgen _ _ Hin).
Qed.

End TokenFacts.

(* ===================================================================== *)
(** * The bot *)
(* ===================================================================== *)

Section BotFacts.
Context {RS : RandomSource}.

Lemma run_eta {A : Type} (r : run A) :
  Run (output r) (outcome r) (final r) = r.
Proof. by destruct r. Qed.

Lemma range_max_retries : seqZ 0 max_retries = [0; 1; 2]%Z.
Proof. reflexivity. Qed.

(** A draw from a sequence that is not empty returns the element at the
    index drawn below its length and moves the generator on. *)
Lemma rng_choice_draw (a : list Z) (self : LLMBot) :
  a <> [] ->
  exists x,
    a !! fst (randint (_rng self) (length a)) = Some x /\
    rng_choice a self
    = Run [] (Returned x)
          (set_rng (snd (randint (_rng self) (length a))) self).
Proof.
  intros Ha.
  assert (Hlen : 0 < length a) by (destruct a; [congruence|cbn; lia]).
  pose proof (randint_lt (_rng self) (length a) Hlen) as Hlt.
  destruct (lookup_lt_is_Some_2 a _ Hlt) as [x Hx].
  exists x. split; [exact Hx|].
  destruct a as [|a0 a]; [congruence|].
  unfold rng_choice, bind, get, modify, ret. cbn [outcome final output].
  destruct (randint (_rng self) (length (a0 :: a))) as [i r] eqn:Hr.
  cbn [fst snd] in Hx |- *. cbn [outcome final output app].
  rewrite Hx. reflexivity.
Qed.

Lemma rng_choice_member (a : list Z) (self : LLMBot) :
  a <> [] ->
  exists x, outcome (rng_choice a self) = Returned x /\ x ∈ a.
Proof.
  intros Ha. destruct (rng_choice_draw a self Ha) as (x & Hx & ->).
  exists x. split; [reflexivity|]. by eapply list_elem_of_lookup_2.
Qed.

Lemma rng_choice_output (a : list Z) (self : LLMBot) :
  output (rng_choice a self) = [].
Proof.
  destruct a as [|a0 a]; [reflexivity|].
  by destruct (rng_choice_draw (a0 :: a) self) as (x & _ & ->).
Qed.

(** A draw changes the generator only. *)
Lemma rng_choice_final (a : list Z) (self : LLMBot) :
  exists r, final (rng_choice a self) = set_rng r self.
Proof.
  destruct a as [|a0 a].
  - exists (_rng self). by destruct self.
  - destruct (rng_choice_draw (a0 :: a) self) as (x & _ & ->);
      [discriminate|]. eauto.
Qed.

Lemma search_from_match_at (s : list ascii) (r : regex) (n i : nat)
    (m : match_object) :
  search_from s r n i = Some m -> exists j, match_at s r j = Some m.
Proof.
  revert i; induction n as [|n IH]; intros i; cbn [search_from];
    [discriminate|].
  destruct (match_at s r i) eqn:Hm; [|apply IH].
  intros [= <-]. eauto.
Qed.

(** A match of [\b(\d+)\b] has its group. *)
Lemma search_group (s : list ascii) (m : match_object) :
  search s action_pattern = Some m -> exists d, group1 s m = Some d.
Proof.
  intros H. apply search_from_match_at in H as [j H].
  rewrite match_at_action_pattern in H. cbv zeta in H.
  destruct (at_boundary s j && (0 <? digit_run (drop j s))
            && at_boundary s (j + digit_run (drop j s)));
    [|discriminate].
  injection H as <-. unfold group1. cbn [m_group]. eauto.
Qed.

(** [int] on a run of digits: their value, up to the limit. *)
Lemma int_digits (d : list ascii) (self : LLMBot) :
  d <> [] -> forallb is_digit d = true ->
  int d self
  = if int_max_str_digits <? length d
    then Run [] (Raised (int_limit_error (length d))) self
    else Run [] (Returned (digits_value d)) self.
Proof.
  intros Hd Hall. unfold int. destruct d as [|a d]; [congruence|].
  rewrite Hall. by destruct (int_max_str_digits <? length (a :: d)).
Qed.

(** What [_parse_action] does, in terms of the first standalone integer
    token of the response. *)
Lemma parse_action_spec (response : string) (legal : list Z)
    (self : LLMBot) :
  _parse_action response legal self
  = match SpecParser.first_standalone_integer (chars response) with
    | Some d =>
        if int_max_str_digits <? length d
        then Run [] (Raised (int_limit_error (length d))) self
        else if bool_decide (digits_value d ∈ legal)
             then Run [] (Returned (digits_value d)) self
             else rng_choice legal self
    | None => rng_choice legal self
    end.
Proof.
  rewrite <- found_digits_strip. unfold found_digits, _parse_action.
  destruct (search (strip (chars response)) action_pattern) as [m|] eqn:Hs;
    [|reflexivity].
  destruct (search_group _ _ Hs) as [d Hd]. rewrite Hd.
  assert (Hfd : found_digits (strip (chars response)) = Some d).
  { unfold found_digits. by rewrite Hs. }
  rewrite found_digits_strip in Hfd.
  apply first_standalone_integer_digits in Hfd as [Hne Hall].
  unfold bind. rewrite (int_digits d self Hne Hall).
  destruct (int_max_str_digits <? length d); [reflexivity|].
  cbn [outcome final output app].
  destruct (bool_decide (digits_value d ∈ legal)); [reflexivity|].
  apply run_eta.
Qed.

Lemma int_accepts_token (response : string) (d : list ascii) :
  int_accepts response ->
  SpecParser.first_standalone_integer (chars response) = Some d ->
  (int_max_str_digits <? length d) = false.
Proof.
  unfold int_accepts. intros H Hd. rewrite Hd in H. by apply Nat.ltb_ge.
Qed.


(** Without a legal action [_parse_action] raises. *)
Lemma parse_action_empty (response : string) (self : LLMBot) :
  (exists e, outcome (_parse_action response [] self) = Raised e) /\
  (int_accepts response ->
   outcome (_parse_action response [] self)
   = Raised (Exception "ValueError"
               "'a' cannot be empty unless no samples are taken")).
Proof.
  rewrite parse_action_spec.
  destruct (SpecParser.first_standalone_integer (chars response))
    as [d|] eqn:Hd.
  2:{ split; [eexists|intros _]; reflexivity. }
  assert (Hin : bool_decide (digits_value d ∈ @nil Z) = false).
  { apply bool_decide_eq_false. apply not_elem_of_nil. }
  split.
  - destruct (int_max_str_digits <? length d); [eexists; reflexivity|].
    rewrite Hin. eexists; reflexivity.
  - intros Hfit. rewrite (int_accepts_token response d Hfit Hd), Hin.
    reflexivity.
Qed.

Lemma parse_action_output (response : string) (legal : list Z)
    (self : LLMBot) :
  output (_parse_action response legal self) = [].
Proof.
  rewrite parse_action_spec.
  destruct (SpecParser.first_standalone_integer (chars response));
    [|apply rng_choice_output].
  destruct (int_max_str_digits <? length l); [reflexivity|].
  destruct (bool_decide _); [reflexivity|apply rng_choice_output].
Qed.

Lemma set_rng_id (self : LLMBot) : set_rng (_rng self) self = self.
Proof. by destruct self. Qed.

Lemma parse_action_final (response : string) (legal : list Z)
    (self : LLMBot) :
  exists r, final (_parse_action response legal self) = set_rng r self.
Proof.
  rewrite parse_action_spec.
  destruct (SpecParser.first_standalone_integer (chars response));
    [|apply rng_choice_final].
  destruct (int_max_str_digits <? length l);
    [exists (_rng self); by rewrite set_rng_id|].
  destruct (bool_decide _); [|apply rng_choice_final].
  exists (_rng self). by rewrite set_rng_id.
Qed.

Lemma record_action_output (r : run Z) : output (record_action r) = output r.
Proof. unfold record_action. by destruct (outcome r). Qed.

Lemma llm_calls_app (o1 o2 : list event) :
  llm_calls (o1 ++ o2) = llm_calls o1 ++ llm_calls o2.
Proof. apply omap_app. Qed.

Lemma sleeps_app (o1 o2 : list event) :
  sleeps (o1 ++ o2) = sleeps o1 ++ sleeps o2.
Proof. apply omap_app. Qed.

Lemma calls_and_sleeps_app (o1 o2 : list event) :
  calls_and_sleeps (o1 ++ o2) = calls_and_sleeps o1 ++ calls_and_sleeps o2.
Proof. apply omap_app. Qed.

(** ** Successful turns, attempt by attempt *)

Lemma succeeds_at_cases (llm : llm_chat_fn) (prompt : string) (k : Z)
    (response : string) (usage : option (gmap string Z)) :
  succeeds_at llm prompt k response usage ->
  (k = 0%Z /\ llm prompt 0%Z = LLMReturns response usage) \/
  (k = 1%Z /\ failed (llm prompt 0%Z) = true
   /\ llm prompt 1%Z = LLMReturns response usage) \/
  (k = 2%Z /\ failed (llm prompt 0%Z) = true
   /\ failed (llm prompt 1%Z) = true
   /\ llm prompt 2%Z = LLMReturns response usage).
Proof.
  intros (Hk & Hbefore & Hret). unfold max_retries in Hk.
  assert (Hk' : k = 0%Z \/ k = 1%Z \/ k = 2%Z) by lia.
  destruct Hk' as [->| [->| ->]].
  - left. auto.
  - right. left. split; [reflexivity|]. split; [|exact Hret].
    apply Hbefore. lia.
  - right. right. split; [reflexivity|].
    split; [apply Hbefore; lia|]. split; [apply Hbefore; lia|exact Hret].
Qed.

(** ** Running a computation step by step *)

Lemma bind_ret {A B : Type} (a : A) (k : A -> M B) (self : LLMBot) :
  bind (ret a) k self = k a self.
Proof. unfold bind, ret. cbn. apply run_eta. Qed.

Lemma bind_get {B : Type} (k : LLMBot -> M B) (self : LLMBot) :
  bind get k self = k self self.
Proof. unfold bind, get. cbn. apply run_eta. Qed.

Lemma bind_modify {B : Type} (f : LLMBot -> LLMBot) (k : unit -> M B)
    (self : LLMBot) :
  bind (modify f) k self = k tt (f self).
Proof. unfold bind, modify. cbn. apply run_eta. Qed.

Lemma bind_emit {B : Type} (e : event) (k : unit -> M B) (self : LLMBot) :
  bind (emit e) k self = prepend [e] (k tt self).
Proof. reflexivity. Qed.

Lemma bind_raise {A B : Type} (e : exception) (k : A -> M B)
    (self : LLMBot) :
  bind (raise e) k self = raise e self.
Proof. reflexivity. Qed.

Lemma bind_assoc {A B C : Type} (m : M A) (f : A -> M B) (g : B -> M C)
    (self : LLMBot) :
  bind (bind m f) g self = bind m (fun x => bind (f x) g) self.
Proof.
  unfold bind. destruct (m self) as [o [a|e] fin]; cbn; [|reflexivity].
  destruct (f a fin) as [o' [b|e'] fin']; cbn; [|reflexivity].
  by rewrite app_assoc.
Qed.

Lemma prepend_prepend {A : Type} (o1 o2 : list event) (r : run A) :
  prepend o1 (prepend o2 r) = prepend (o1 ++ o2) r.
Proof. unfold prepend. cbn. by rewrite app_assoc. Qed.

Lemma bind_ext {A B : Type} (m : M A) (f g : A -> M B) (self : LLMBot) :
  (forall a s, f a s = g a s) -> bind m f self = bind m g self.
Proof.
  intros H. unfold bind. destruct (m self) as [o [a|e] fin]; cbn;
    [rewrite H|]; reflexivity.
Qed.

Lemma bind_ret_r {A : Type} (m : M A) (self : LLMBot) :
  bind m (fun x => ret x) self = m self.
Proof.
  unfold bind, ret. destruct (m self) as [o [a|e] fin]; cbn;
    by rewrite ?app_nil_r.
Qed.

Ltac run_on :=
  repeat first
    [ rewrite bind_assoc
    | rewrite bind_emit
    | rewrite bind_modify
    | rewrite bind_get
    | rewrite bind_ret
    | rewrite bind_raise
    | rewrite prepend_prepend
    | progress cbv beta ].

Lemma bind_record (m : M Z) (self : LLMBot) :
  bind m (fun action =>
    bind (modify (fun self =>
            set_action_history
              (_action_history self ++ [(_player_id self, action)]) self))
         (fun _ => ret action)) self
  = record_action (m self).
Proof.
  unfold bind, record_action, modify, ret.
  destruct (m self) as [o [a|e] fin]; cbn; by rewrite ?app_nil_r.
Qed.

(** ** What the bookkeeping of an attempt leaves in the fields *)

Lemma record_exchange_frame (prompt response : string)
    (usage : option (gmap string Z)) (self : LLMBot) :
  let self' := record_exchange prompt response usage self in
  _game self' = _game self /\ _player_id self' = _player_id self /\
  _rng self' = _rng self /\ _action_history self' = _action_history self /\
  _last_error self' = _last_error self /\
  _conversation self'
  = _conversation self
    ++ [Message "user" prompt; Message "assistant" response].
Proof.
  unfold record_exchange. destruct (truthy usage); cbn;
    by rewrite <- app_assoc.
Qed.

Lemma usage_get_falsy (usage : option (gmap string Z)) (key : string) :
  truthy usage = false -> usage_get usage key = 0%Z.
Proof.
  destruct usage as [u|]; cbn; [|reflexivity].
  intros H. apply negb_false_iff, bool_decide_eq_true in H. by subst.
Qed.

Lemma record_exchange_usage (prompt response : string)
    (usage : option (gmap string Z)) (self : LLMBot) :
  _total_usage (record_exchange prompt response usage self)
  = {| prompt_tokens :=
         prompt_tokens (_total_usage self)
         + usage_get usage "prompt_tokens";
       completion_tokens :=
         completion_tokens (_total_usage self)
         + usage_get usage "completion_tokens";
       total_tokens :=
         total_tokens (_total_usage self)
         + usage_get usage "total_tokens" |}.
Proof.
  unfold record_exchange. destruct (truthy usage) eqn:Ht; cbn;
    [reflexivity|].
  rewrite !usage_get_falsy, !Z.add_0_r by exact Ht.
  by destruct (_total_usage self).
Qed.

Lemma usage_get_nonneg (usage : option (gmap string Z)) (key : string) :
  token_counts usage -> (0 <= usage_get usage key)%Z.
Proof.
  intros Hc. destruct usage as [u|]; cbn; [|lia].
  destruct (u !! key) as [n|] eqn:Hn; cbn; [|lia].
  by apply (Hc u key n).
Qed.

(** An attempt that is handled leaves the game, the player, the generator,
    the action history and the last error as they were. *)
Lemma after_failure_frame (prompt : string) (o : llm_outcome)
    (self : LLMBot) :
  let self' := after_failure prompt o self in
  _game self' = _game self /\ _player_id self' = _player_id self /\
  _rng self' = _rng self /\ _action_history self' = _action_history self /\
  _last_error self' = _last_error self.
Proof.
  destruct o as [| response usage bad e t | | |]; cbn; try done.
  by destruct bad.
Qed.

(** ** One attempt of a turn *)

Lemma step_turn (llm : llm_chat_fn) (state : State) (self : LLMBot) :
  step llm state self
  = turn_from llm state (_generate_prompt self state) (seqZ 0 max_retries)
      self.
Proof. unfold step. rewrite bind_get. reflexivity. Qed.

Lemma after_loop_broke (state : State) (response : string)
    (usage : option (gmap string Z)) (self : LLMBot) :
  after_loop state (Broke response usage) self
  = record_action
      (_parse_action response (legal_actions state (_player_id self)) self).
Proof. unfold after_loop. rewrite bind_get. apply bind_record. Qed.

Lemma turn_from_cons (llm : llm_chat_fn) (state : State) (prompt : string)
    (attempt : Z) (range' : list Z) (self : LLMBot) :
  exists line,
    turn_from llm state prompt (attempt :: range') self
    = one_attempt state prompt (llm prompt attempt)
        (attempt <? max_retries - 1)%Z line
        (turn_from llm state prompt range') self.
Proof.
  assert (Hdraw : forall (legal : list Z) (s : LLMBot),
            bind (rng_choice legal)
              (fun action => bind (ret (ReturnedAction action))
                               (after_loop state)) s
            = rng_choice legal s).
  { intros legal s.
    rewrite (bind_ext _ _ (fun x => ret x))
      by (intros; by rewrite bind_ret).
    apply bind_ret_r. }
  unfold turn_from, one_attempt. cbn [attempts].
  destruct (llm prompt attempt)
    as [response usage|response usage bad e t| |e t|e].
  - exists EmptyString. unfold record_exchange.
    destruct (truthy usage); run_on; rewrite after_loop_broke;
      cbn [_player_id set_conversation add_prompt_tokens
           add_completion_tokens add_total_tokens set_total_usage];
      reflexivity.
  - destruct (attempt <? max_retries - 1)%Z; destruct bad;
      eexists; run_on; cbn [after_failure]; rewrite ?Hdraw; reflexivity.
  - destruct (attempt <? max_retries - 1)%Z;
      eexists; run_on; cbn [after_failure]; rewrite ?Hdraw; reflexivity.
  - destruct (attempt <? max_retries - 1)%Z;
      eexists; run_on; cbn [after_failure]; rewrite ?Hdraw; reflexivity.
  - exists EmptyString. run_on. reflexivity.
Qed.

End BotFacts.

(* ===================================================================== *)
(** * The turn *)
(* ===================================================================== *)

Section TurnFacts.
Context {RS : RandomSource}.

Lemma record_action_outcome (r : run Z) :
  outcome (record_action r) = outcome r.
Proof. by destruct r as [o [a|e] fin]. Qed.

(** Parsing the response and recording the action leave the transcript,
    the totals and the last error as they are. *)
Lemma record_action_frame (response : string) (legal : list Z)
    (s : LLMBot) :
  let s' := final (record_action (_parse_action response legal s)) in
  _conversation s' = _conversation s /\
  _total_usage s' = _total_usage s /\
  _last_error s' = _last_error s.
Proof.
  destruct (parse_action_final response legal s) as [g Hf].
  unfold record_action.
  destruct (_parse_action response legal s) as [o [a|e] fin];
    cbn in *; subst; repeat split.
Qed.

Lemma record_action_usage (response : string) (legal : list Z)
    (s : LLMBot) :
  _total_usage (final (record_action (_parse_action response legal s)))
  = _total_usage s.
Proof. apply record_action_frame. Qed.

(** A handled attempt does not lower the totals when the numbers of the
    usage dict are not negative. *)
Lemma after_failure_totals (prompt : string) (o : llm_outcome)
    (s : LLMBot) :
  match o with
  | LLMReturns _ usage => token_counts usage
  | LLMReturnsBadUsage _ usage _ _ _ => token_counts (Some usage)
  | _ => True
  end ->
  totals_le (_total_usage s) (_total_usage (after_failure prompt o s)).
Proof.
  unfold totals_le.
  destruct o as [| response usage bad e t | | |]; intros Hc;
    cbn [after_failure]; try lia.
  pose proof (usage_get_nonneg (Some usage) "prompt_tokens" Hc).
  pose proof (usage_get_nonneg (Some usage) "completion_tokens" Hc).
  destruct bad;
    cbn [add_prompt_tokens add_completion_tokens set_total_usage
         set_conversation _total_usage prompt_tokens completion_tokens
         total_tokens]; lia.
Qed.

(** ** An attempt whose call fails, and one whose call returns *)

Lemma turn_from_failed (llm : llm_chat_fn) (state : State) (prompt : string)
    (attempt : Z) (range' : list Z) (self : LLMBot) :
  failed (llm prompt attempt) = true ->
  exists line,
    turn_from llm state prompt (attempt :: range') self
    = prepend [LLMCall prompt call_timeout]
        (if (attempt <? max_retries - 1)%Z
         then prepend [Print line; Sleep retry_delay]
                (turn_from llm state prompt range' self)
         else prepend [Print line]
                (rng_choice (legal_actions state (_player_id self))
                   (set_last_error
                      (Some (terminal_error prompt (llm prompt attempt)))
                      self))).
Proof.
  intros Hf.
  destruct (turn_from_cons llm state prompt attempt range' self)
    as [line ->].
  exists line. unfold one_attempt.
  destruct (llm prompt attempt); try discriminate; reflexivity.
Qed.

Lemma turn_from_handled (llm : llm_chat_fn) (state : State)
    (prompt : string) (attempt : Z) (range' : list Z) (self : LLMBot) :
  handled (llm prompt attempt) = true ->
  exists line,
    turn_from llm state prompt (attempt :: range') self
    = prepend [LLMCall prompt call_timeout]
        (if (attempt <? max_retries - 1)%Z
         then prepend [Print line; Sleep retry_delay]
                (turn_from llm state prompt range'
                   (after_failure prompt (llm prompt attempt) self))
         else prepend [Print line]
                (rng_choice (legal_actions state (_player_id self))
                   (set_last_error
                      (Some (terminal_error prompt (llm prompt attempt)))
                      (after_failure prompt (llm prompt attempt) self)))).
Proof.
  intros Hf.
  destruct (turn_from_cons llm state prompt attempt range' self)
    as [line ->].
  exists line. unfold one_attempt.
  destruct (llm prompt attempt); try discriminate; reflexivity.
Qed.

Lemma after_failure_conversation (prompt : string) (o : llm_outcome)
    (s : LLMBot) :
  _conversation (after_failure prompt o s)
  = _conversation s ++ kept_exchange prompt o.
Proof.
  destruct o as [| response usage bad e t | | |];
    try (cbn; by rewrite app_nil_r).
  destruct bad; cbn; by rewrite <- app_assoc.
Qed.

Lemma turn_from_returns (llm : llm_chat_fn) (state : State)
    (prompt : string) (attempt : Z) (range' : list Z) (self : LLMBot)
    (response : string) (usage : option (gmap string Z)) :
  llm prompt attempt = LLMReturns response usage ->
  turn_from llm state prompt (attempt :: range') self
  = prepend [LLMCall prompt call_timeout]
      (record_action
         (_parse_action response (legal_actions state (_player_id self))
            (record_exchange prompt response usage self))).
Proof.
  intros E.
  destruct (turn_from_cons llm state prompt attempt range' self)
    as [line ->].
  unfold one_attempt. by rewrite E.
Qed.

(** A turn whose attempts all fail: three calls with a sleep between two
    of them, the error record, and the draw from the legal actions. *)
Lemma step_all_fail (llm : llm_chat_fn) (state : State) (self : LLMBot) :
  let prompt := _generate_prompt self state in
  all_fail llm prompt ->
  exists out,
    llm_calls out = [prompt; prompt; prompt] /\
    sleeps out = [retry_delay; retry_delay] /\
    calls_and_sleeps out = retry_schedule prompt 3 /\
    step llm state self
    = prepend out
        (rng_choice (legal_actions state (_player_id self))
           (set_last_error
              (Some {| err_prompt := prompt;
                       err_error := failure_description (llm prompt 2%Z);
                       err_attempts := max_retries |}) self)).
Proof.
  intros prompt Hfail.
  pose proof (Hfail 0%Z ltac:(unfold max_retries; lia)) as H0.
  pose proof (Hfail 1%Z ltac:(unfold max_retries; lia)) as H1.
  pose proof (Hfail 2%Z ltac:(unfold max_retries; lia)) as H2.
  rewrite step_turn, range_max_retries. fold prompt.
  destruct (turn_from_failed llm state prompt 0 [1; 2]%Z self H0)
    as [l0 ->].
  destruct (turn_from_failed llm state prompt 1 [2]%Z self H1)
    as [l1 ->].
  destruct (turn_from_failed llm state prompt 2 [] self H2)
    as [l2 ->].
  change (0 <? max_retries - 1)%Z with true;
    change (1 <? max_retries - 1)%Z with true;
    change (2 <? max_retries - 1)%Z with false; cbv iota.
  rewrite !prepend_prepend.
  eexists; (split; [|split; [|split; [|reflexivity]]]); reflexivity.
Qed.

(** A turn whose call succeeds: the attempts up to the one that returns,
    the exchange recorded, the response parsed and the action recorded. *)
Lemma step_succeeds (llm : llm_chat_fn) (state : State) (self : LLMBot)
    (k : Z) (response : string) (usage : option (gmap string Z)) :
  let prompt := _generate_prompt self state in
  succeeds_at llm prompt k response usage ->
  exists out,
    llm_calls out = replicate (S (Z.to_nat k)) prompt /\
    calls_and_sleeps out = retry_schedule prompt (S (Z.to_nat k)) /\
    step llm state self
    = prepend out
        (record_action
           (_parse_action response (legal_actions state (_player_id self))
              (record_exchange prompt response usage self))).
Proof.
  intros prompt Hs. apply succeeds_at_cases in Hs.
  rewrite step_turn, range_max_retries. fold prompt.
  destruct Hs as [(-> & Hr)|[(-> & H0 & Hr)|(-> & H0 & H1 & Hr)]].
  - rewrite (turn_from_returns _ _ _ _ _ _ _ _ Hr).
    eexists; (split; [|split; [|reflexivity]]); reflexivity.
  - destruct (turn_from_failed llm state prompt 0 [1; 2]%Z self H0)
      as [l0 ->].
    rewrite (turn_from_returns _ _ _ _ _ _ _ _ Hr).
    change (0 <? max_retries - 1)%Z with true; cbv iota.
    rewrite !prepend_prepend.
    eexists; (split; [|split; [|reflexivity]]); reflexivity.
  - destruct (turn_from_failed llm state prompt 0 [1; 2]%Z self H0)
      as [l0 ->].
    destruct (turn_from_failed llm state prompt 1 [2]%Z self H1)
      as [l1 ->].
    rewrite (turn_from_returns _ _ _ _ _ _ _ _ Hr).
    change (0 <? max_retries - 1)%Z with true;
      change (1 <? max_retries - 1)%Z with true; cbv iota.
    rewrite !prepend_prepend.
    eexists; (split; [|split; [|reflexivity]]); reflexivity.
Qed.

(** The fields after a turn whose call succeeded. *)
Lemma step_succeeds_fields (llm : llm_chat_fn) (state : State)
    (self : LLMBot) (k : Z) (response : string)
    (usage : option (gmap string Z)) :
  let prompt := _generate_prompt self state in
  succeeds_at llm prompt k response usage ->
  let r := step llm state self in
  _conversation (final r)
  = _conversation self
    ++ [Message "user" prompt; Message "assistant" response] /\
  _total_usage (final r)
  = _total_usage (record_exchange prompt response usage self) /\
  _last_error (final r) = _last_error self /\
  _player_id (final r) = _player_id self /\
  outcome r
  = outcome (_parse_action response
               (legal_actions state (_player_id self))
               (record_exchange prompt response usage self)) /\
  forall a, outcome r = Returned a ->
    _action_history (final r)
    = _action_history self ++ [(_player_id self, a)].
Proof.
  intros prompt Hs r. subst r.
  destruct (step_succeeds llm state self k response usage Hs)
    as (out & _ & _ & ->).
  fold prompt.
  set (self1 := record_exchange prompt response usage self).
  destruct (record_exchange_frame prompt response usage self)
    as (Hg & Hp & Hr & Hh & He & Hc). fold self1 in Hg, Hp, Hr, Hh, He, Hc.
  destruct (parse_action_final response
              (legal_actions state (_player_id self)) self1) as [r' Hf].
  unfold prepend, record_action. cbn [final outcome].
  destruct (_parse_action response (legal_actions state (_player_id self))
              self1) as [o [a|e] fin]; cbn [final outcome] in *; subst fin;
    cbn; rewrite ?Hc, ?He, ?Hp, ?Hh; repeat split; try reflexivity.
  - intros a' [= ->]. reflexivity.
  - discriminate.
Qed.

(** The fields after a turn whose attempts all failed. *)
Lemma step_all_fail_fields (llm : llm_chat_fn) (state : State)
    (self : LLMBot) :
  let prompt := _generate_prompt self state in
  all_fail llm prompt ->
  let self' := final (step llm state self) in
  _conversation self' = _conversation self /\
  _total_usage self' = _total_usage self /\
  _action_history self' = _action_history self /\
  _last_error self'
  = Some {| err_prompt := prompt;
            err_error :=
              failure_description (llm prompt (max_retries - 1)%Z);
            err_attempts := max_retries |}.
Proof.
  intros prompt Hf self'. subst self'.
  destruct (step_all_fail llm state self Hf) as (out & _ & _ & _ & ->).
  fold prompt. set (self1 := set_last_error _ self).
  unfold prepend. cbn [final].
  destruct (rng_choice_final (legal_actions state (_player_id self)) self1)
    as [r ->].
  cbn. repeat split.
Qed.

(** ** Whatever the calls do *)

(** A property of the turns holds of every turn when it holds of a turn
    that ends at its first attempt, by an answer or by an exception that is
    not handled, and is kept when a handled attempt comes before: [Q d]
    speaks of a turn with [d] attempts at most. *)
Section TurnInduction.
Variables (llm : llm_chat_fn) (state : State) (prompt : string).
Variable Q : nat -> LLMBot -> run Z -> Prop.

Hypothesis Hanswer :
  forall d self attempt response usage,
    llm prompt attempt = LLMReturns response usage ->
    Q (S d) self
      (prepend [LLMCall prompt call_timeout]
         (record_action
            (_parse_action response (legal_actions state (_player_id self))
               (record_exchange prompt response usage self)))).

Hypothesis Habort :
  forall d self attempt e,
    llm prompt attempt = LLMAborts e ->
    Q (S d) self
      (prepend [LLMCall prompt call_timeout] (Run [] (Raised e) self)).

Hypothesis Hretry :
  forall d self attempt line r,
    handled (llm prompt attempt) = true ->
    Q (S d) (after_failure prompt (llm prompt attempt) self) r ->
    Q (S (S d)) self
      (prepend [LLMCall prompt call_timeout; Print line; Sleep retry_delay]
         r).

Hypothesis Hlast :
  forall self attempt line,
    handled (llm prompt attempt) = true ->
    Q 1 self
      (prepend [LLMCall prompt call_timeout; Print line]
         (rng_choice (legal_actions state (_player_id self))
            (set_last_error
               (Some (terminal_error prompt (llm prompt attempt)))
               (after_failure prompt (llm prompt attempt) self)))).

Lemma turn_level (d : nat) (attempt : Z) (range' : list Z) :
  (if (attempt <? max_retries - 1)%Z
   then exists d', d = S d' /\
          forall self, Q (S d') self (turn_from llm state prompt range' self)
   else d = 0) ->
  forall self,
    Q (S d) self (turn_from llm state prompt (attempt :: range') self).
Proof.
  intros Hnext self.
  destruct (turn_from_cons llm state prompt attempt range' self)
    as [line ->].
  unfold one_attempt.
  pose proof (Hretry) as Hr. pose proof (Hlast self attempt line) as Hl.
  destruct (llm prompt attempt)
    as [response usage|response usage bad e t| |e t|e] eqn:E.
  - by apply (Hanswer d self attempt).
  - cbv zeta. destruct (attempt <? max_retries - 1)%Z.
    + destruct Hnext as (d' & -> & IH). rewrite prepend_prepend.
      specialize (Hr d' self attempt line). rewrite E in Hr.
      apply Hr; [reflexivity|apply IH].
    + subst d. rewrite prepend_prepend. by apply Hl.
  - cbv zeta. destruct (attempt <? max_retries - 1)%Z.
    + destruct Hnext as (d' & -> & IH). rewrite prepend_prepend.
      specialize (Hr d' self attempt line). rewrite E in Hr.
      apply Hr; [reflexivity|apply IH].
    + subst d. rewrite prepend_prepend. by apply Hl.
  - cbv zeta. destruct (attempt <? max_retries - 1)%Z.
    + destruct Hnext as (d' & -> & IH). rewrite prepend_prepend.
      specialize (Hr d' self attempt line). rewrite E in Hr.
      apply Hr; [reflexivity|apply IH].
    + subst d. rewrite prepend_prepend. by apply Hl.
  - by apply (Habort d self attempt).
Qed.

Lemma turn_induction (self : LLMBot) :
  Q 3 self (turn_from llm state prompt (seqZ 0 max_retries) self).
Proof.
  rewrite range_max_retries. revert self.
  apply (turn_level 2 0 [1; 2]%Z).
  change (0 <? max_retries - 1)%Z with true. cbv iota.
  exists 1. split; [reflexivity|].
  apply (turn_level 1 1 [2]%Z).
  change (1 <? max_retries - 1)%Z with true. cbv iota.
  exists 0. split; [reflexivity|].
  apply (turn_level 0 2 []).
  reflexivity.
Qed.

End TurnInduction.

End TurnFacts.
(* ===================================================================== *)
(** * Texts and prompts *)
(* ===================================================================== *)

Section TextFacts.

Lemma append_cons (x : ascii) (a b : string) :
  String x a +:+ b = String x (a +:+ b).
Proof. reflexivity. Qed.

Lemma append_assoc (a b c : string) : (a +:+ b) +:+ c = a +:+ (b +:+ c).
Proof.
  induction a as [|x a IH]; [reflexivity|].
  by rewrite !append_cons, IH.
Qed.

Lemma append_nil_r (a : string) : a +:+ EmptyString = a.
Proof.
  induction a as [|x a IH]; [reflexivity|]. by rewrite append_cons, IH.
Qed.

Lemma chars_append (a b : string) : chars (a +:+ b) = chars a ++ chars b.
Proof.
  unfold chars. induction a as [|x a IH]; [reflexivity|].
  rewrite append_cons. cbn. by rewrite IH.
Qed.

Lemma text_chars (s : string) : text (chars s) = s.
Proof. apply string_of_list_ascii_of_string. Qed.

Lemma chars_text (l : list ascii) : chars (text l) = l.
Proof. apply list_ascii_of_string_of_list_ascii. Qed.

Lemma text_app (l k : list ascii) : text (l ++ k) = text l +:+ text k.
Proof.
  rewrite <- (text_chars (text l +:+ text k)), chars_append, !chars_text.
  reflexivity.
Qed.

Lemma occurs_here (needle post : string) : occurs needle (needle +:+ post).
Proof. by exists EmptyString, post. Qed.

Lemma occurs_refl (needle : string) : occurs needle needle.
Proof. exists EmptyString, EmptyString. cbn. by rewrite append_nil_r. Qed.

Lemma occurs_skip (needle a b : string) :
  occurs needle b -> occurs needle (a +:+ b).
Proof.
  intros (pre & post & ->). exists (a +:+ pre), post.
  by rewrite append_assoc.
Qed.

Lemma occurs_left (needle a b : string) :
  occurs needle a -> occurs needle (a +:+ b).
Proof.
  intros (pre & post & ->). exists pre, (post +:+ b).
  by rewrite !append_assoc.
Qed.

(** [contains] decides [occurs]. *)
Lemma starts_with_spec (needle hay : list ascii) :
  starts_with needle hay = true <-> exists post, hay = needle ++ post.
Proof.
  revert hay; induction needle as [|a needle IH]; intros hay; cbn.
  - split; [eauto|reflexivity].
  - destruct hay as [|b hay].
    + split; [discriminate|]. intros (post & H). discriminate.
    + rewrite andb_true_iff, Ascii.eqb_eq, IH. split.
      * intros (-> & post & ->). eauto.
      * intros (post & [= -> ->]). eauto.
Qed.

Lemma contains_from_spec (needle hay : list ascii) :
  contains_from needle hay = true
  <-> exists pre post, hay = pre ++ needle ++ post.
Proof.
  induction hay as [|b hay IH]; cbn [contains_from];
    rewrite orb_true_iff, starts_with_spec.
  - split.
    + intros [(post & H)|H]; [|discriminate]. by exists [], post.
    + intros (pre & post & H). left.
      destruct pre; [eauto|discriminate].
  - rewrite IH. split.
    + intros [(post & H)|(pre & post & H)].
      * by exists [], post.
      * exists (b :: pre), post. cbn. by rewrite H.
    + intros (pre & post & H). destruct pre as [|x pre].
      * left. eauto.
      * right. injection H as -> ->. eauto.
Qed.

Lemma contains_occurs (needle hay : string) :
  contains needle hay = true <-> occurs needle hay.
Proof.
  unfold contains, occurs. rewrite contains_from_spec. split.
  - intros (pre & post & H). exists (text pre), (text post).
    rewrite <- (text_chars hay), H, !text_app, text_chars. reflexivity.
  - intros (pre & post & ->). exists (chars pre), (chars post).
    by rewrite !chars_append.
Qed.

(** A loop that appends one piece for each element appends the pieces in
    order. *)
Lemma fold_left_append {A : Type} (f : string -> A -> string)
    (piece : A -> string) (l : list A) (start : string) :
  (forall p x, f p x = p +:+ piece x) ->
  fold_left f l start = start +:+ join EmptyString (map piece l).
Proof.
  intros Hf. revert start; induction l as [|x l IH]; intros start; cbn.
  - by rewrite append_nil_r.
  - rewrite IH, Hf, append_assoc. destruct l; cbn; [|reflexivity].
    by rewrite !append_nil_r.
Qed.

End TextFacts.

Section PromptFacts.
Context {RS : RandomSource}.

Lemma occurs_line (a b c rest : string) :
  occurs (a +:+ b +:+ c) ((a +:+ b) +:+ c +:+ rest).
Proof. exists EmptyString, rest. by rewrite !append_assoc. Qed.

End PromptFacts.

(* ===================================================================== *)
(** * Numbers and their decimal rendering *)
(* ===================================================================== *)

Section DecimalFacts.
Import SpecParser.

Lemma digits_value_cons (c : ascii) (l : list ascii) (acc : Z) :
  fold_left (fun acc c => (10 * acc + digit_value c)%Z) (c :: l) acc
  = fold_left (fun acc c => (10 * acc + digit_value c)%Z) l
      (10 * acc + digit_value c)%Z.
Proof. reflexivity. Qed.

Lemma value_uint_acc (d : Decimal.uint) (p : positive) :
  fold_left (fun acc c => (10 * acc + digit_value c)%Z)
    (chars (NilEmpty.string_of_uint d)) (Z.pos p)
  = Z.pos (Pos.of_uint_acc d p).
Proof.
  revert p.
  induction d as [|d IH|d IH|d IH|d IH|d IH|d IH|d IH|d IH|d IH|d IH];
    intros p; [reflexivity|..];
    cbn [NilEmpty.string_of_uint Pos.of_uint_acc];
    change (chars (String ?c ?s)) with (c :: chars s);
    rewrite digits_value_cons, <- IH; f_equal;
    match goal with
    | |- context [digit_value ?c] =>
        let v := eval vm_compute in (digit_value c) in
        change (digit_value c) with v
    end; lia.
Qed.

Lemma value_uint (d : Decimal.uint) :
  digits_value (chars (NilEmpty.string_of_uint d)) = Z.of_N (Pos.of_uint d).
Proof.
  unfold digits_value.
  induction d as [|d IH|d IH|d IH|d IH|d IH|d IH|d IH|d IH|d IH|d IH];
    [reflexivity|..];
    cbn [NilEmpty.string_of_uint Pos.of_uint];
    change (chars (String ?c ?s)) with (c :: chars s);
    rewrite digits_value_cons; [exact IH|..];
    exact (value_uint_acc d _).
Qed.

Lemma digits_uint (d : Decimal.uint) :
  forallb is_digit (chars (NilEmpty.string_of_uint d)) = true.
Proof.
  induction d as [|d IH|d IH|d IH|d IH|d IH|d IH|d IH|d IH|d IH|d IH];
    [reflexivity|..]; cbn [NilEmpty.string_of_uint];
    change (chars (String ?c ?s)) with (c :: chars s);
    cbn [forallb]; by rewrite IH.
Qed.

(** [str(n)] of a number that is not negative: digits, one at least, whose
    value is [n]. *)
Lemma str_nonneg (n : Z) :
  (0 <= n)%Z ->
  chars (str n) <> [] /\
  forallb is_digit (chars (str n)) = true /\
  digits_value (chars (str n)) = n.
Proof.
  intros Hn. unfold str.
  destruct (Z.to_int n) as [d|d] eqn:Hd.
  2:{ destruct n; cbn in Hd; try discriminate. lia. }
  pose proof (DecimalZ.of_to n) as Hround. rewrite Hd in Hround.
  cbn [Z.of_int Z.of_uint] in Hround.
  unfold NilZero.string_of_int, NilZero.string_of_uint.
  unfold Z.of_uint in Hround.
  assert (Hgen : d <> Decimal.Nil ->
                 chars (NilEmpty.string_of_uint d) <> [] /\
                 forallb is_digit (chars (NilEmpty.string_of_uint d)) = true /\
                 digits_value (chars (NilEmpty.string_of_uint d)) = n).
  { intros Hne. split; [|split; [apply digits_uint|by rewrite value_uint]].
    destruct d; [congruence|..]; discriminate. }
  destruct d; [|by apply Hgen..].
  cbn in Hround. subst n. repeat split. discriminate.
Qed.

(** The tokens of a text made of word characters: the text itself. *)
Lemma tokens_word (l : list ascii) :
  l <> [] -> forallb is_word l = true -> tokens l = [l].
Proof.
  intros Hne Hw. unfold tokens.
  rewrite <- (app_nil_r l) at 1. rewrite tokens_from_words by exact Hw.
  rewrite app_nil_r. cbn [tokens_from].
  destruct (rev l) as [|c r] eqn:Hr.
  - apply (f_equal (@rev ascii)) in Hr. rewrite rev_involutive in Hr.
    by subst.
  - by rewrite <- Hr, rev_involutive.
Qed.

Lemma digits_are_words (l : list ascii) :
  forallb is_digit l = true -> forallb is_word l = true.
Proof.
  induction l as [|c l IH]; [done|]. cbn [forallb].
  intros [Hc Hl]%andb_true_iff. by rewrite (digit_is_word c Hc), IH.
Qed.

Lemma blank_spaces (ws : string) :
  blank ws = true -> Forall (fun c => isspace c = true) (chars ws).
Proof.
  unfold blank. intros H. apply Forall_forall. intros c Hc.
  rewrite forallb_forall in H. apply H. by apply list_elem_of_In.
Qed.

(** A number that is not negative, with white space around it, is the first
    standalone integer token of the text, and its own value. *)
Lemma first_standalone_integer_str (n : Z) (before after : string) :
  (0 <= n)%Z -> blank before = true -> blank after = true ->
  first_standalone_integer (chars (before +:+ str n +:+ after))
  = Some (chars (str n)).
Proof.
  intros Hn Hb Ha. destruct (str_nonneg n Hn) as (Hne & Hd & _).
  unfold first_standalone_integer.
  rewrite !chars_append.
  rewrite tokens_leading_space by by apply blank_spaces.
  unfold tokens at 1.
  rewrite tokens_from_trailing_space by by apply blank_spaces.
  fold (tokens (chars (str n))).
  rewrite tokens_word by (done || by apply digits_are_words).
  cbn [find]. by rewrite Hd.
Qed.


Lemma scan_without_digits (l : list ascii) (prev : bool) :
  forallb (fun c => negb (is_digit c)) l = true -> scan prev l = None.
Proof.
  revert prev; induction l as [|c l IH]; intros prev; [reflexivity|].
  cbn [forallb]. intros [Hc Hl]%andb_true_iff.
  apply negb_true_iff in Hc. cbn [scan digit_run]. rewrite Hc.
  rewrite andb_false_r. cbn [andb]. by apply IH.
Qed.

Lemma paired_snoc (prompt response : string) (conversation : list message) :
  paired conversation = true ->
  paired (conversation
          ++ [Message "user" prompt; Message "assistant" response]) = true.
Proof.
  remember (length conversation) as n eqn:Hn. revert conversation Hn.
  induction n as [n IH] using lt_wf_ind. intros conversation Hn Hp.
  destruct conversation as [|u [|a rest]]; [reflexivity|discriminate|].
  cbn [paired app] in Hp |- *.
  apply andb_true_iff in Hp as [Hua Hrest]. rewrite Hua. cbn [andb].
  apply (IH (length rest)); [subst n; cbn; lia|reflexivity|exact Hrest].
Qed.

End DecimalFacts.

(* ===================================================================== *)
(** * More on the prompts *)
(* ===================================================================== *)

Section MorePromptFacts.
Context {RS : RandomSource}.

Lemma occurs_join_elem (x sep : string) (parts : list string) :
  In x parts -> occurs x (join sep parts).
Proof.
  induction parts as [|p parts IH]; [intros []|].
  intros [->|Hin].
  - destruct parts; [apply occurs_refl|apply occurs_here].
  - destruct parts as [|q parts]; [destruct Hin|].
    change (join sep (p :: q :: parts))
      with (p +:+ sep +:+ join sep (q :: parts)).
    do 2 apply occurs_skip. by apply IH.
Qed.

Lemma occurs_front (a b rest : string) : occurs (a +:+ b) (a +:+ b +:+ rest).
Proof. exists EmptyString, rest. by rewrite !append_assoc. Qed.


(** The lines of the count by face come after what the prompt holds
    before them. *)
Lemma face_lines_appended (my_dice : list Z) (start : string) :
  fold_left
    (fun (prompt : string) (face : Z) =>
       (if (face =? 1)%Z && (0 <? count my_dice face)%Z
        then (prompt +:+ "  " +:+ str face +:+ "s: "
              +:+ str (count my_dice face) +:+ " dice")
             +:+ " (WILD - counts as any face)"
        else prompt +:+ "  " +:+ str face +:+ "s: "
             +:+ str (count my_dice face) +:+ " dice") +:+ nl)
    (seqZ 1 6) start
  = start +:+
    join EmptyString
      (map (fun face =>
              "  " +:+ str face +:+ "s: " +:+ str (count my_dice face)
              +:+ " dice"
              +:+ (if (face =? 1)%Z && (0 <? count my_dice face)%Z
                   then " (WILD - counts as any face)"
                   else EmptyString)
              +:+ nl)
           (seqZ 1 6)).
Proof.
  apply fold_left_append. intros q face.
  destruct ((face =? 1)%Z && (0 <? count my_dice face)%Z);
    by rewrite !append_assoc.
Qed.

(** [str(int(d))] of a digit is the digit. *)
Lemma str_digit_value (c : ascii) :
  ascii_digit c = true -> str (digit_value c) = String c EmptyString.
Proof.
  destruct c as [b0 b1 b2 b3 b4 b5 b6 b7].
  destruct b0, b1, b2, b3, b4, b5, b6, b7; vm_compute; congruence.
Qed.

Lemma str_digit_values (l : list ascii) :
  forallb ascii_digit l = true ->
  map str (map digit_value l) = map (fun c => String c EmptyString) l.
Proof.
  induction l as [|c l IH]; [reflexivity|]. cbn [forallb map].
  intros [Hc Hl]%andb_true_iff. by rewrite str_digit_value, IH.
Qed.

Lemma occurs_start (needle hay post : string) :
  hay = needle +:+ post -> occurs needle hay.
Proof. intros ->. apply occurs_here. Qed.

Lemma isdigit_digits (s : string) :
  isdigit s = true -> forallb ascii_digit (chars s) = true.
Proof. unfold isdigit. by destruct (chars s). Qed.

End MorePromptFacts.


Section TranscriptFacts.
Context {RS : RandomSource}.

Lemma after_failure_paired (prompt : string) (o : llm_outcome)
    (s : LLMBot) :
  paired (_conversation s) = true ->
  paired (_conversation (after_failure prompt o s)) = true.
Proof.
  intros Hp. destruct o as [| response usage bad e t | | |]; try exact Hp.
  cbn [after_failure].
  assert (Hc : forall s' : LLMBot,
            _conversation s'
            = _conversation s
              ++ [Message "user" prompt; Message "assistant" response] ->
            paired (_conversation s') = true).
  { intros s' ->. by apply paired_snoc. }
  destruct bad; apply Hc; cbn; by rewrite <- app_assoc.
Qed.

End TranscriptFacts.

(* ===================================================================== *)
(** * The properties of the specification *)
(* ===================================================================== *)




(** C2.  A turn at which the pair is not recorded: every call times out,
    the turn returns a legal action drawn by the fallback, and the action
    history is left empty, without the pair of the own player id and this
    action.  On the same state an answer of the LLM is recorded. *)
Theorem step_fallback_skips_history :
  let r := step llm_times_out opening_state demo_bot in
  let r' := step (llm_answers "2" None) opening_state demo_bot in
  (exists a, outcome r = Returned a /\
             a ∈ legal_actions opening_state (_player_id demo_bot) /\
             _action_history (final r) = [] /\
             _action_history (final r)
             <> _action_history demo_bot ++ [(_player_id demo_bot, a)]) /\
  outcome r' = Returned 2%Z /\
  _action_history (final r')
  = _action_history demo_bot ++ [(_player_id demo_bot, 2%Z)].
Proof.
  split; [|split; reflexivity].
  exists 1%Z. split; [reflexivity|]. split; [|split; [reflexivity|]].
  - apply list_elem_of_In. cbn. tauto.
  - discriminate.
Qed.




(** C4.  A response on which the parser raises: the text is an integer of
    4301 digits, its first and only standalone integer token; the legal
    actions are 1, 2 and 3.  [int] raises [ValueError] on it, no [except]
    clause is around the conversion, and [_parse_action] raises instead of
    falling back to the draw.  On an integer of 4300 digits, which is no
    legal action either, it falls back and returns the action drawn. *)
Theorem parse_action_raises_on_long_integer :
  let legal := [1; 2; 3]%Z in
  SpecParser.first_standalone_integer (chars (ones 4301))
  = Some (chars (ones 4301)) /\
  _parse_action (ones 4301) legal demo_bot
  = Run [] (Raised (int_limit_error 4301)) demo_bot /\
  int_limit_error 4301
  = Exception "ValueError"
      ("Exceeds the limit (4300 digits) for integer string conversion: "
       +:+ "value has 4301 digits; "
       +:+ "use sys.set_int_max_str_digits() to increase the limit") /\
  outcome (_parse_action (ones 4300) legal demo_bot) = Returned 1%Z.
Proof.
  split; [by vm_compute|]. split; [by vm_compute|].
  split; by vm_compute.
Qed.

(** C5.  A later turn at which the prompt is the one of the first turn.  On
    the first turn, with the dice 1, 1 and 3, the prompt has the rules
    section and reports two wild dice, as the claim says.  The calls of this
    turn all time out, the turn returns the action drawn, and nothing is
    added to the transcript: [_generate_prompt] takes the next turn for the
    first one.  Its state renders the bids 1-2 and 2-3, and the prompt has
    the rules section again, announces the opening bid, and names no current
    bid and nowhere the most recent bid.  After a first turn whose call
    succeeds, the prompt for the same state is without the rules section
    and gives 2-3 as the current bid. *)
Theorem later_turn_after_failed_turn_repeats_rules :
  let first := _generate_prompt demo_bot opening_state in
  let failed_turn := step llm_times_out opening_state demo_bot in
  let answered_turn := step (llm_answers "2" None) opening_state demo_bot in
  let p := _generate_prompt (final failed_turn) later_state in
  let p' := _generate_prompt (final answered_turn) later_state in
  (occurs rules_heading first /\
   occurs ("  1s: 2 dice (WILD - counts as any face)" +:+ nl) first /\
   occurs "Since you have 2 wild 1s" first) /\
  ((exists a, outcome failed_turn = Returned a) /\
   get_conversation (final failed_turn) = [] /\
   split (state_str later_state) = ["113"; "1-2"; "2-3"] /\
   occurs rules_heading p /\
   occurs "Bid history: None (you're making the opening bid)" p /\
   ~ occurs "Current bid" p /\
   ~ occurs "2-3" p) /\
  (outcome answered_turn = Returned 2%Z /\
   ~ occurs rules_heading p' /\
   occurs ("Current bid: 2-3" +:+ nl) p').
Proof.
  assert (Hyes : forall needle hay,
            contains needle hay = true -> occurs needle hay)
    by (intros; by apply contains_occurs).
  assert (Hno : forall needle hay,
            contains needle hay = false -> ~ occurs needle hay).
  { intros needle hay H Ho. apply contains_occurs in Ho. congruence. }
  intros first failed_turn answered_turn p p'.
  split; [|split].
  - split; [|split]; apply Hyes; by vm_compute.
  - split; [by exists 1%Z|]. split; [reflexivity|]. split; [reflexivity|].
    split; [apply Hyes; by vm_compute|].
    split; [apply Hyes; by vm_compute|].
    split; apply Hno; by vm_compute.
  - split; [reflexivity|].
    split; [apply Hno|apply Hyes]; by vm_compute.
Qed.

(** C6.  After a reset, two turns whose calls succeed with the usage records
    (10, 5, 15) and (7, 3, 10) leave the totals at (17, 8, 25), and the next
    reset returns them to (0, 0, 0).  In general a turn whose call succeeds
    adds to each total the field of the usage record, a field that is missing
    (or a record that is [None]) counting as zero. *)
Theorem usage_accumulates_and_resets {RS : RandomSource} (self : LLMBot)
    (state0 state1 state2 state3 : State) (llm1 llm2 : llm_chat_fn)
    (k1 k2 : Z) (response1 response2 : string) :
  let bot0 := final (restart_at state0 self) in
  let bot1 := final (step llm1 state1 bot0) in
  let bot2 := final (step llm2 state2 bot1) in
  succeeds_at llm1 (_generate_prompt bot0 state1) k1 response1
    (usage_of 10 5 15) ->
  succeeds_at llm2 (_generate_prompt bot1 state2) k2 response2
    (usage_of 7 3 10) ->
  get_total_usage bot0 = zero_usage /\
  get_total_usage bot2
  = {| prompt_tokens := 17; completion_tokens := 8; total_tokens := 25 |} /\
  get_total_usage (final (restart_at state3 bot2)) = zero_usage /\
  (forall llm state k response usage,
      succeeds_at llm (_generate_prompt self state) k response usage ->
      let field key :=
        match usage with
        | Some u => match u !! key with Some n => n | None => 0%Z end
        | None => 0%Z
        end in
      get_total_usage (final (step llm state self))
      = {| prompt_tokens :=
             prompt_tokens (get_total_usage self) + field "prompt_tokens";
           completion_tokens :=
             completion_tokens (get_total_usage self)
             + field "completion_tokens";
           total_tokens :=
             total_tokens (get_total_usage self) + field "total_tokens" |}).
Proof.
  intros bot0 bot1 bot2 H1 H2. unfold get_total_usage.
  assert (Hgen : forall (b : LLMBot) llm state k response usage,
             succeeds_at llm (_generate_prompt b state) k response usage ->
             _total_usage (final (step llm state b))
             = {| prompt_tokens :=
                    prompt_tokens (_total_usage b)
                    + usage_get usage "prompt_tokens";
                  completion_tokens :=
                    completion_tokens (_total_usage b)
                    + usage_get usage "completion_tokens";
                  total_tokens :=
                    total_tokens (_total_usage b)
                    + usage_get usage "total_tokens" |}).
  { intros b llm state k response usage Hs.
    destruct (step_succeeds_fields llm state b k response usage Hs)
      as (_ & -> & _).
    apply record_exchange_usage. }
  split; [reflexivity|]. split; [|split; [reflexivity|]].
  - subst bot2. rewrite (Hgen _ _ _ _ _ _ H2).
    subst bot1. rewrite (Hgen _ _ _ _ _ _ H1).
    reflexivity.
  - intros llm state k response usage Hs. cbv zeta.
    rewrite (Hgen _ _ _ _ _ _ Hs). by destruct usage.
Qed.

Lemma usage_accumulates_and_resets_witness :
  let bot0 := final (restart_at opening_state demo_bot) in
  let llm1 := llm_answers "2" (usage_of 10 5 15) in
  let llm2 := llm_answers "5" (usage_of 7 3 10) in
  let bot1 := final (step llm1 opening_state bot0) in
  let bot2 := final (step llm2 later_state bot1) in
  succeeds_at llm1 (_generate_prompt bot0 opening_state) 0 "2"
    (usage_of 10 5 15) /\
  succeeds_at llm2 (_generate_prompt bot1 later_state) 0 "5"
    (usage_of 7 3 10) /\
  get_total_usage bot2
  = {| prompt_tokens := 17; completion_tokens := 8; total_tokens := 25 |} /\
  get_total_usage (final (restart_at opening_state bot2)) = zero_usage.
Proof.
  intros bot0 llm1 llm2 bot1 bot2.
  assert (H1 : succeeds_at llm1 (_generate_prompt bot0 opening_state) 0 "2"
                 (usage_of 10 5 15)).
  { split; [unfold max_retries; lia|]. split; [intros; lia|reflexivity]. }
  assert (H2 : succeeds_at llm2 (_generate_prompt bot1 later_state) 0 "5"
                 (usage_of 7 3 10)).
  { split; [unfold max_retries; lia|]. split; [intros; lia|reflexivity]. }
  split; [exact H1|]. split; [exact H2|].
  destruct (@usage_accumulates_and_resets lcg demo_bot opening_state
              opening_state later_state opening_state llm1 llm2 0 0 "2" "5"
              H1 H2) as (_ & Ht & Hr & _).
  split; [exact Ht|exact Hr].
Defined.

(** C7, as stated, at a turn where it fails: the totals are (10, 5, 15),
    the call of the turn succeeds, and the usage record that it returns
    holds the numbers -5, -1 and -6; [step] adds them as they are, and each
    of the three counters is lower after the turn than before it. *)
Lemma negative_usage_lowers_totals :
  let r := step (llm_answers "2" (usage_of (-5) (-1) (-6))) opening_state
             played_bot in
  get_total_usage played_bot
  = {| prompt_tokens := 10; completion_tokens := 5; total_tokens := 15 |} /\
  outcome r = Returned 2%Z /\
  get_total_usage (final r)
  = {| prompt_tokens := 5; completion_tokens := 4; total_tokens := 9 |} /\
  ~ totals_le (get_total_usage played_bot) (get_total_usage (final r)).
Proof.
  split; [reflexivity|]. split; [reflexivity|]. split; [reflexivity|].
  intros (H & _). vm_compute in H. by apply H.
Qed.

(** C7, as amended.  When the numbers of the usage records that the
    injected function returns are not negative, no operation within an
    episode lowers a usage counter: a turn, with whatever else the injected
    function does, leaves each of the three counters at least as large as
    it was; the notification of an action leaves them as they are; only the
    reset of the episode changes them otherwise, and it sets all three to
    zero. *)
Theorem usage_totals_monotone {RS : RandomSource} (llm : llm_chat_fn)
    (state : State) (player_id action : Z) (self : LLMBot) :
  reports_token_counts llm ->
  totals_le (get_total_usage self)
            (get_total_usage (final (step llm state self))) /\
  get_total_usage (final (inform_action state player_id action self))
  = get_total_usage self /\
  get_total_usage (final (restart_at state self)) = zero_usage.
Proof.
  intros Hcounts. unfold get_total_usage.
  split; [|split; reflexivity].
  rewrite step_turn. set (prompt := _generate_prompt self state).
  apply (turn_induction llm state prompt
           (fun _ s r => totals_le (_total_usage s) (_total_usage (final r)))).
  - intros _ s attempt response usage E. cbn [prepend final].
    rewrite record_action_usage, record_exchange_usage.
    pose proof (Hcounts prompt attempt) as Hc. rewrite E in Hc.
    pose proof (usage_get_nonneg usage "prompt_tokens" Hc).
    pose proof (usage_get_nonneg usage "completion_tokens" Hc).
    pose proof (usage_get_nonneg usage "total_tokens" Hc).
    unfold totals_le. cbn. lia.
  - intros _ s attempt e _. unfold totals_le. cbn. lia.
  - intros _ s attempt line r _ IH. cbn [prepend final].
    pose proof (after_failure_totals prompt _ s (Hcounts prompt attempt))
      as Hle.
    unfold totals_le in *. lia.
  - intros s attempt line _. cbn [prepend final].
    pose proof (after_failure_totals prompt _ s (Hcounts prompt attempt))
      as Hle.
    destruct (rng_choice_final (legal_actions state (_player_id s))
                (set_last_error
                   (Some (terminal_error prompt (llm prompt attempt)))
                   (after_failure prompt (llm prompt attempt) s)))
      as [g ->].
    cbn [set_rng set_last_error _total_usage]. exact Hle.
Qed.

Lemma usage_totals_monotone_witness :
  reports_token_counts (llm_answers "2" (usage_of 10 5 15)) /\
  totals_le (get_total_usage played_bot)
    (get_total_usage
       (final (step (llm_answers "2" (usage_of 10 5 15)) later_state
                 played_bot))).
Proof.
  assert (Hc : reports_token_counts (llm_answers "2" (usage_of 10 5 15))).
  { intros prompt attempt u key n [= <-] Hn.
    unfold usage_of in Hn.
    repeat (apply lookup_insert_Some in Hn as [[_ <-]|[_ Hn]]; [lia|]).
    apply lookup_singleton_Some in Hn as [_ <-]. lia. }
  split; [exact Hc|].
  exact (proj1 (@usage_totals_monotone lcg _ later_state 0%Z 0%Z played_bot
                  Hc)).
Defined.

(** C8.  A turn whose call succeeds, whose response yields no legal action,
    and which does not resolve by the random fallback: the response is an
    integer of 4301 digits, the legal actions are 1, 2 and 3, and the turn
    raises the [ValueError] of [int] to the caller.  The last error is left
    as it was, as it is on the response [no idea], for which the turn
    returns the action drawn. *)
Theorem parse_failure_raises_on_long_integer :
  let llm := llm_answers (ones 4301) None in
  let prompt := _generate_prompt demo_bot opening_state in
  let legal := legal_actions opening_state (_player_id demo_bot) in
  let r := step llm opening_state demo_bot in
  let r' := step (llm_answers "no idea" None) opening_state demo_bot in
  succeeds_at llm prompt 0 (ones 4301) None /\
  legal = [1; 2; 3]%Z /\
  names_no_legal_action (ones 4301) legal /\
  outcome r = Raised (int_limit_error 4301) /\
  get_last_error (final r) = get_last_error demo_bot /\
  outcome r' = Returned 1%Z /\
  get_last_error (final r') = get_last_error demo_bot.
Proof.
  intros llm prompt legal r r'.
  split.
  { split; [unfold max_retries; lia|]. split; [intros; lia|reflexivity]. }
  split; [reflexivity|]. split.
  { unfold names_no_legal_action.
    assert (H : SpecParser.first_standalone_integer (chars (ones 4301))
                = Some (chars (ones 4301))) by (by vm_compute).
    rewrite H.
    apply (bool_decide_eq_false_1 (digits_value (chars (ones 4301)) ∈ legal)).
    by vm_compute. }
  split; [by vm_compute|]. split; [by vm_compute|].
  split; by vm_compute.
Qed.

(** C9.  A turn whose attempts all fail leaves the transcript, the usage
    totals and the action history as they were; of the episode's fields it
    writes the last error only. *)
Theorem terminal_fallback_frame {RS : RandomSource} (llm : llm_chat_fn)
    (state : State) (self : LLMBot) :
  let prompt := _generate_prompt self state in
  all_fail llm prompt ->
  let self' := final (step llm state self) in
  _conversation self' = _conversation self /\
  _total_usage self' = _total_usage self /\
  _action_history self' = _action_history self /\
  _last_error self'
  = Some {| err_prompt := prompt;
            err_error := failure_description (llm prompt (max_retries - 1)%Z);
            err_attempts := max_retries |}.
Proof.
  intros prompt Hf. by apply step_all_fail_fields.
Qed.

Lemma terminal_fallback_frame_witness :
  let prompt := _generate_prompt demo_bot opening_state in
  let after := final (step llm_times_out later_state played_bot) in
  all_fail llm_times_out (_generate_prompt played_bot later_state) /\
  _conversation played_bot
  = [Message "user" prompt; Message "assistant" "2"] /\
  _conversation after = [Message "user" prompt; Message "assistant" "2"] /\
  _total_usage played_bot
  = {| prompt_tokens := 10; completion_tokens := 5; total_tokens := 15 |} /\
  _total_usage after
  = {| prompt_tokens := 10; completion_tokens := 5; total_tokens := 15 |} /\
  _action_history played_bot = [(1, 7); (0, 2)]%Z /\
  _action_history after = [(1, 7); (0, 2)]%Z /\
  _last_error played_bot = None /\
  _last_error after
  = Some {| err_prompt := _generate_prompt played_bot later_state;
            err_error := "LLM call timeout after 120s";
            err_attempts := 3 |}.
Proof.
  intros prompt after.
  assert (Hf : all_fail llm_times_out
                 (_generate_prompt played_bot later_state))
    by (intros j _; reflexivity).
  assert (Hc : _conversation played_bot
               = [Message "user" prompt; Message "assistant" "2"])
    by reflexivity.
  assert (Hu : _total_usage played_bot
               = {| prompt_tokens := 10; completion_tokens := 5;
                    total_tokens := 15 |}) by reflexivity.
  assert (Hh : _action_history played_bot = [(1, 7); (0, 2)]%Z)
    by reflexivity.
  destruct (@terminal_fallback_frame lcg llm_times_out later_state
              played_bot Hf) as (Hc' & Hu' & Hh' & He').
  split; [exact Hf|]. split; [exact Hc|].
  split; [exact (eq_trans Hc' Hc)|]. split; [exact Hu|].
  split; [exact (eq_trans Hu' Hu)|]. split; [exact Hh|].
  split; [exact (eq_trans Hh' Hh)|]. split; [reflexivity|exact He'].
Defined.

(** C10.  With an empty legal action set no turn returns, whatever the
    injected function does: the turn raises.  The fallback after the last
    retry and the parse fallback draw from an empty sequence, and the turn
    raises the [ValueError] of the draw: when every attempt fails, when the
    call succeeds with a response that [int] accepts, and in general when no
    call ends in an exception that is not an [Exception] and [int] accepts
    the answers. *)
Theorem empty_legal_actions_raise {RS : RandomSource} (llm : llm_chat_fn)
    (state : State) (self : LLMBot) :
  let prompt := _generate_prompt self state in
  let empty :=
    Exception "ValueError"
      "'a' cannot be empty unless no samples are taken" in
  legal_actions state (_player_id self) = [] ->
  let r := step llm state self in
  (exists e, outcome r = Raised e) /\
  (all_fail llm prompt -> outcome r = Raised empty) /\
  (forall k response usage,
      succeeds_at llm prompt k response usage -> int_accepts response ->
      outcome r = Raised empty) /\
  (never_aborts llm prompt -> answers_fit llm prompt ->
   outcome r = Raised empty).
Proof.
  intros prompt empty Hl r. subst r.
  assert (Hgen :
    (exists e, outcome (step llm state self) = Raised e) /\
    (never_aborts llm prompt -> answers_fit llm prompt ->
     outcome (step llm state self) = Raised empty)).
  { rewrite step_turn. fold prompt.
    apply (turn_induction llm state prompt
             (fun _ s r =>
                _player_id s = _player_id self ->
                (exists e, outcome r = Raised e) /\
                (never_aborts llm prompt -> answers_fit llm prompt ->
                 outcome r = Raised empty)));
      [| | | |reflexivity].
    - intros _ s attempt response usage E Hp. cbn [prepend outcome].
      rewrite record_action_outcome, Hp, Hl.
      destruct (parse_action_empty response
                  (record_exchange prompt response usage s)) as [He Hv].
      split; [exact He|]. intros _ Hfit. apply Hv.
      exact (Hfit attempt response usage E).
    - intros _ s attempt e E _. cbn [prepend outcome].
      split; [eauto|]. intros Hna. by destruct (Hna attempt e).
    - intros _ s attempt line r _ IH Hp. cbn [prepend outcome]. apply IH.
      destruct (after_failure_frame prompt (llm prompt attempt) s)
        as (_ & -> & _). exact Hp.
    - intros s attempt line _ Hp. cbn [prepend outcome]. rewrite Hp, Hl.
      split; [eexists|intros _ _]; reflexivity. }
  destruct Hgen as [Hraise Hvalue].
  split; [exact Hraise|]. split; [|split; [|exact Hvalue]].
  - intros Hf.
    destruct (step_all_fail llm state self Hf) as (out & _ & _ & _ & ->).
    rewrite Hl. reflexivity.
  - intros k response usage Hs Hfit.
    destruct (step_succeeds_fields llm state self k response usage Hs)
      as (_ & _ & _ & _ & -> & _).
    rewrite Hl. by apply parse_action_empty.
Qed.

Lemma empty_legal_actions_raise_witness :
  let empty :=
    Exception "ValueError"
      "'a' cannot be empty unless no samples are taken" in
  legal_actions stuck_state (_player_id demo_bot) = [] /\
  all_fail llm_times_out (_generate_prompt demo_bot stuck_state) /\
  outcome (step llm_times_out stuck_state demo_bot) = Raised empty /\
  succeeds_at (llm_answers "2" None) (_generate_prompt demo_bot stuck_state)
    0 "2" None /\
  int_accepts "2" /\
  outcome (step (llm_answers "2" None) stuck_state demo_bot) = Raised empty /\
  exists e, outcome (step llm_cancelled stuck_state demo_bot) = Raised e.
Proof.
  intros empty.
  assert (Hl : legal_actions stuck_state (_player_id demo_bot) = [])
    by reflexivity.
  assert (Hf : all_fail llm_times_out (_generate_prompt demo_bot stuck_state))
    by (intros j _; reflexivity).
  assert (Hs : succeeds_at (llm_answers "2" None)
                 (_generate_prompt demo_bot stuck_state) 0 "2" None).
  { split; [unfold max_retries; lia|]. split; [intros; lia|reflexivity]. }
  assert (Hfit : int_accepts "2").
  { unfold int_accepts.
    change (SpecParser.first_standalone_integer (chars "2"))
      with (Some (chars "2")).
    apply Nat.leb_le. reflexivity. }
  split; [exact Hl|]. split; [exact Hf|].
  split.
  { exact (proj1 (proj2 (@empty_legal_actions_raise lcg llm_times_out
                           stuck_state demo_bot Hl)) Hf). }
  split; [exact Hs|]. split; [exact Hfit|].
  split.
  { exact (proj1 (proj2 (proj2 (@empty_legal_actions_raise lcg
                                  (llm_answers "2" None) stuck_state
                                  demo_bot Hl))) 0%Z "2" None Hs Hfit). }
  exact (proj1 (@empty_legal_actions_raise lcg llm_cancelled stuck_state
                  demo_bot Hl)).
Defined.
(* ===================================================================== *)
(** * Further properties of the code *)
(* ===================================================================== *)

(** X1.  An answer that is the number of a legal action as the prompt
    renders it, with white space around it or none, selects this action:
    [_parse_action] returns it without a draw from the random source.  The
    number must not be negative, for the pattern has no sign, and must have
    no more digits than [int] accepts. *)
Theorem parse_action_selects_rendered_action {RS : RandomSource}
    (action : Z) (legal : list Z) (before after : string) (self : LLMBot) :
  (0 <= action)%Z ->
  length (chars (str action)) <= int_max_str_digits ->
  action ∈ legal ->
  blank before = true ->
  blank after = true ->
  _parse_action (before +:+ str action +:+ after) legal self
  = Run [] (Returned action) self.
Proof.
  intros Hn Hlen Hin Hb Ha. rewrite parse_action_spec.
  rewrite (first_standalone_integer_str action before after Hn Hb Ha).
  cbv beta iota. rewrite (proj2 (Nat.ltb_ge _ _) Hlen).
  destruct (str_nonneg action Hn) as (_ & _ & ->).
  by rewrite bool_decide_eq_true_2.
Qed.

Lemma parse_action_selects_rendered_action_witness :
  (0 <= 12)%Z /\ length (chars (str 12)) <= int_max_str_digits /\
  12%Z ∈ [3; 12; 40]%Z /\
  _parse_action (" " +:+ str 12 +:+ nl) [3; 12; 40]%Z demo_bot
  = Run [] (Returned 12%Z) demo_bot.
Proof.
  assert (H0 : (0 <= 12)%Z) by lia.
  assert (Hlen : length (chars (str 12)) <= int_max_str_digits)
    by (apply Nat.leb_le; reflexivity).
  assert (Hin : 12%Z ∈ [3; 12; 40]%Z) by (apply list_elem_of_In; cbn; tauto).
  split; [exact H0|]. split; [exact Hlen|]. split; [exact Hin|].
  apply (@parse_action_selects_rendered_action lcg 12 [3; 12; 40]%Z
           " " nl demo_bot H0 Hlen Hin); reflexivity.
Defined.

(** X2.  A turn whose call succeeds with a response whose first standalone
    integer, of no more digits than [int] accepts, is a legal action returns
    this action, leaves the random source and the last error as they were,
    appends the pair of the own player id and the action to the history,
    and the prompt and the response to the transcript. *)
Theorem step_records_answer {RS : RandomSource} (llm : llm_chat_fn)
    (state : State) (self : LLMBot) (k : Z) (response : string)
    (usage : option (gmap string Z)) (token : list ascii) :
  let prompt := _generate_prompt self state in
  let action := digits_value token in
  succeeds_at llm prompt k response usage ->
  SpecParser.first_standalone_integer (chars response) = Some token ->
  length token <= int_max_str_digits ->
  action ∈ legal_actions state (_player_id self) ->
  let r := step llm state self in
  outcome r = Returned action /\
  _rng (final r) = _rng self /\
  get_last_error (final r) = get_last_error self /\
  _action_history (final r)
  = _action_history self ++ [(_player_id self, action)] /\
  get_conversation (final r)
  = get_conversation self
    ++ [Message "user" prompt; Message "assistant" response].
Proof.
  intros prompt action Hs Htok Hlen Hin r. subst r.
  destruct (step_succeeds llm state self k response usage Hs)
    as (out & _ & _ & ->).
  fold prompt. rewrite parse_action_spec, Htok.
  rewrite (proj2 (Nat.ltb_ge _ _) Hlen).
  fold action. rewrite bool_decide_eq_true_2 by exact Hin.
  destruct (record_exchange_frame prompt response usage self)
    as (_ & Hp & Hr & Hh & He & Hc).
  unfold prepend, record_action, get_last_error, get_conversation.
  cbn [outcome final output]. cbn [_rng _last_error _action_history
    _conversation _player_id set_action_history].
  by rewrite Hp, Hr, Hh, He, Hc.
Qed.

Lemma step_records_answer_witness :
  succeeds_at (llm_recovers "I bid 3.") (_generate_prompt demo_bot opening_state)
    1 "I bid 3." None /\
  SpecParser.first_standalone_integer (chars "I bid 3.") = Some (chars "3") /\
  outcome (step (llm_recovers "I bid 3.") opening_state demo_bot)
  = Returned 3%Z /\
  _action_history (final (step (llm_recovers "I bid 3.") opening_state
                            demo_bot))
  = [(0%Z, 3%Z)].
Proof.
  assert (Hs : succeeds_at (llm_recovers "I bid 3.")
                 (_generate_prompt demo_bot opening_state) 1 "I bid 3." None).
  { split; [unfold max_retries; lia|]. split; [|reflexivity].
    intros j Hj. by replace j with 0%Z by lia. }
  split; [exact Hs|]. split; [reflexivity|].
  destruct (@step_records_answer lcg _ opening_state demo_bot 1 "I bid 3."
              None (chars "3") Hs eq_refl) as (Ho & _ & _ & Hh & _).
  { apply Nat.leb_le. reflexivity. }
  { apply list_elem_of_In. cbn. tauto. }
  split; [exact Ho|exact Hh].
Defined.

(** X3.  A response without a decimal digit, of ASCII or of another script,
    names no action: [_parse_action] does what the draw from the legal
    actions does, which raises when there is no legal action. *)
Theorem parse_action_without_digits {RS : RandomSource} (response : string)
    (legal : list Z) (self : LLMBot) :
  forallb (fun c => negb (is_digit c)) (chars response) = true ->
  _parse_action response legal self = rng_choice legal self.
Proof.
  intros Hno. rewrite parse_action_spec.
  rewrite <- scan_first_standalone_integer.
  by rewrite scan_without_digits.
Qed.

Lemma parse_action_without_digits_witness :
  forallb (fun c => negb (is_digit c)) (chars "I pass, sorry.") = true /\
  _parse_action "I pass, sorry." [4; 5; 6]%Z demo_bot
  = rng_choice [4; 5; 6]%Z demo_bot.
Proof.
  split; [reflexivity|].
  by apply (@parse_action_without_digits lcg).
Defined.

(** X4.  Whatever the injected function does, the calls and the sleeps of a
    turn are, in this order: a call, then a sleep of [retry_delay] and
    another call for each retry, with [max_retries] = 3 calls at most.  So
    the turn starts and ends with a call, every call is made with the prompt
    built at the start of the turn, a sleep falls between two consecutive
    calls, and there is no sleep after the last call. *)
Theorem step_calls_bounded {RS : RandomSource} (llm : llm_chat_fn)
    (state : State) (self : LLMBot) :
  let prompt := _generate_prompt self state in
  let r := step llm state self in
  exists n,
    1 <= n <= Z.to_nat max_retries /\
    calls_and_sleeps (output r) = retry_schedule prompt n /\
    llm_calls (output r) = replicate n prompt /\
    sleeps (output r) = replicate (n - 1) retry_delay.
Proof.
  intros prompt r. subst r. rewrite step_turn. fold prompt.
  change (Z.to_nat max_retries) with 3.
  apply (turn_induction llm state prompt
           (fun d _ r =>
              exists n,
                1 <= n <= d /\
                calls_and_sleeps (output r) = retry_schedule prompt n /\
                llm_calls (output r) = replicate n prompt /\
                sleeps (output r) = replicate (n - 1) retry_delay)).
  - intros d s attempt response usage _. exists 1. split; [lia|].
    cbn [prepend output].
    rewrite record_action_output, parse_action_output. by repeat split.
  - intros d s attempt e _. exists 1. split; [lia|]. by repeat split.
  - intros d s attempt line r _ (n & Hn & Hcs & Hc & Hs).
    exists (S n). split; [lia|]. cbn [prepend output].
    rewrite calls_and_sleeps_app, llm_calls_app, sleeps_app, Hcs, Hc, Hs.
    destruct n as [|n]; [lia|].
    replace (S (S n) - 1) with (S n) by lia.
    replace (S n - 1) with n by lia.
    by repeat split.
  - intros s attempt line _. exists 1. split; [lia|].
    cbn [prepend output]. rewrite rng_choice_output. by repeat split.
Qed.

(** X5.  A turn never clears the last error: once a failed turn has written
    it, it stays until the reset of the episode, and a later turn whose call
    succeeds leaves it exactly as it was. *)
Theorem last_error_persists {RS : RandomSource} (llm : llm_chat_fn)
    (state : State) (self : LLMBot) (e : error_record) :
  get_last_error self = Some e ->
  let r := step llm state self in
  (exists e', get_last_error (final r) = Some e') /\
  (forall k response usage,
      succeeds_at llm (_generate_prompt self state) k response usage ->
      get_last_error (final r) = Some e) /\
  (forall player action,
      get_last_error (final (inform_action state player action self))
      = Some e) /\
  get_last_error (final (restart_at state self)) = None.
Proof.
  intros He r. subst r. unfold get_last_error in *.
  assert (Hok : forall k response usage,
             succeeds_at llm (_generate_prompt self state) k response usage ->
             _last_error (final (step llm state self)) = Some e).
  { intros k response usage Hs.
    destruct (step_succeeds_fields llm state self k response usage Hs)
      as (_ & _ & -> & _). exact He. }
  split; [|split; [exact Hok|split; [intros; exact He|reflexivity]]].
  rewrite step_turn. set (prompt := _generate_prompt self state).
  apply (turn_induction llm state prompt
           (fun _ s r =>
              (exists e0, _last_error s = Some e0) ->
              exists e', _last_error (final r) = Some e'));
    [| | | |eauto].
  - intros _ s attempt response usage _ Hs. cbn [prepend final].
    destruct (record_action_frame response
                (legal_actions state (_player_id s))
                (record_exchange prompt response usage s)) as (_ & _ & ->).
    by destruct (record_exchange_frame prompt response usage s)
      as (_ & _ & _ & _ & -> & _).
  - intros _ s attempt e0 _ Hs. exact Hs.
  - intros _ s attempt line r _ IH Hs. cbn [prepend final]. apply IH.
    by destruct (after_failure_frame prompt (llm prompt attempt) s)
      as (_ & _ & _ & _ & ->).
  - intros s attempt line _ _. cbn [prepend final].
    destruct (rng_choice_final (legal_actions state (_player_id s))
                (set_last_error
                   (Some (terminal_error prompt (llm prompt attempt)))
                   (after_failure prompt (llm prompt attempt) s)))
      as [g ->].
    cbn. eauto.
Qed.

Lemma last_error_persists_witness :
  let failed_bot := final (step llm_times_out opening_state demo_bot) in
  let e := {| err_prompt := _generate_prompt demo_bot opening_state;
              err_error := "LLM call timeout after 120s";
              err_attempts := 3 |} in
  get_last_error failed_bot = Some e /\
  get_last_error (final (step (llm_answers "2" None) later_state failed_bot))
  = Some e.
Proof.
  intros failed_bot e.
  assert (He : get_last_error failed_bot = Some e) by reflexivity.
  split; [exact He|].
  destruct (@last_error_persists lcg (llm_answers "2" None) later_state
              failed_bot e He) as (_ & Hok & _).
  apply (Hok 0%Z "2" None).
  split; [unfold max_retries; lia|]. split; [intros; lia|reflexivity].
Defined.

(** X6.  The transcript stays a sequence of exchanges, a user entry followed
    by the entry of the assistant: a turn, whatever the injected function
    does, adds whole exchanges only, the notification of an action adds
    nothing, and the reset leaves the transcript empty. *)
Theorem transcript_stays_paired {RS : RandomSource} (llm : llm_chat_fn)
    (state : State) (self : LLMBot) :
  paired (get_conversation self) = true ->
  paired (get_conversation (final (step llm state self))) = true /\
  (forall player action,
      get_conversation (final (inform_action state player action self))
      = get_conversation self) /\
  get_conversation (final (restart_at state self)) = [].
Proof.
  intros Hp. unfold get_conversation in *.
  split; [|split; [reflexivity|reflexivity]].
  rewrite step_turn. set (prompt := _generate_prompt self state).
  apply (turn_induction llm state prompt
           (fun _ s r =>
              paired (_conversation s) = true ->
              paired (_conversation (final r)) = true));
    [| | | |exact Hp].
  - intros _ s attempt response usage _ Hs. cbn [prepend final].
    destruct (record_action_frame response
                (legal_actions state (_player_id s))
                (record_exchange prompt response usage s)) as (-> & _).
    destruct (record_exchange_frame prompt response usage s)
      as (_ & _ & _ & _ & _ & ->).
    by apply paired_snoc.
  - intros _ s attempt e0 _ Hs. exact Hs.
  - intros _ s attempt line r _ IH Hs. cbn [prepend final]. apply IH.
    by apply after_failure_paired.
  - intros s attempt line _ Hs. cbn [prepend final].
    destruct (rng_choice_final (legal_actions state (_player_id s))
                (set_last_error
                   (Some (terminal_error prompt (llm prompt attempt)))
                   (after_failure prompt (llm prompt attempt) s)))
      as [g ->].
    cbn [set_rng set_last_error _conversation].
    by apply after_failure_paired.
Qed.

Lemma transcript_stays_paired_witness :
  paired (get_conversation played_bot) = true /\
  get_conversation played_bot <> [] /\
  paired (get_conversation
            (final (step llm_bad_usage later_state played_bot)))
  = true /\
  get_conversation (final (restart_at later_state played_bot)) = [].
Proof.
  assert (Hp : paired (get_conversation played_bot) = true) by reflexivity.
  split; [exact Hp|]. split; [discriminate|].
  destruct (@transcript_stays_paired lcg llm_bad_usage later_state played_bot
              Hp) as (Hstep & _ & Hreset).
  split; [exact Hstep|exact Hreset].
Defined.



(** X8.  A game other than [liars_dice] gets the default prompt: it names
    the game, shows the text of the state and the player, and is the same
    on every turn, for it depends on the bot through its game and its player
    only, not through the transcript. *)
Theorem default_prompt_for_other_games {RS : RandomSource} (self : LLMBot)
    (state : State) :
  short_name (_game self) <> "liars_dice" ->
  let p := _generate_prompt self state in
  occurs ("You are playing " +:+ short_name (_game self) +:+ ".") p /\
  occurs (state_str state) p /\
  occurs ("You are Player " +:+ str (_player_id self) +:+ ".") p /\
  forall self' : LLMBot,
    _game self' = _game self -> _player_id self' = _player_id self ->
    _generate_prompt self' state = p.
Proof.
  intros Hname p. subst p. apply String.eqb_neq in Hname.
  unfold _generate_prompt. rewrite Hname.
  split; [|split; [|split]].
  - unfold _generate_default_prompt. cbv zeta. cbn [join].
    apply occurs_here.
  - unfold _generate_default_prompt. cbv zeta. cbn [join].
    do 6 apply occurs_skip. apply occurs_here.
  - unfold _generate_default_prompt. cbv zeta. cbn [join].
    do 10 apply occurs_skip. apply occurs_here.
  - intros self' Hg Hp. rewrite Hg, Hname.
    unfold _generate_default_prompt. by rewrite Hp.
Qed.

Lemma default_prompt_for_other_games_witness :
  let later := final (step (llm_answers "5" None) other_state other_bot) in
  short_name (_game other_bot) <> "liars_dice" /\
  get_conversation later <> [] /\
  _generate_prompt later other_state = _generate_prompt other_bot other_state.
Proof.
  intros later.
  assert (Hn : short_name (_game other_bot) <> "liars_dice") by discriminate.
  split; [exact Hn|]. split; [discriminate|].
  destruct (@default_prompt_for_other_games lcg other_bot other_state Hn)
    as (_ & _ & _ & Hsame).
  by apply Hsame.
Defined.

(** X9.  On a later turn of Liar's Dice whose state renders no bid, the
    text of the state holding one part at most, the prompt gives [None] as
    the current bid and as the bid history. *)
Theorem later_prompt_without_bids {RS : RandomSource} (self : LLMBot)
    (state : State) :
  length (split (state_str state)) <= 1 ->
  let p := _generate_liars_dice_prompt self state false in
  occurs ("Current bid: " +:+ "None" +:+ nl) p /\
  occurs ("Bid history: " +:+ "None" +:+ nl) p.
Proof.
  intros Hlen p. subst p. unfold _generate_liars_dice_prompt. cbv zeta.
  assert (Hno : (1 <? length (split (state_str state))) = false)
    by (apply Nat.ltb_ge; lia).
  rewrite Hno. cbn [last]. cbn [join]. split.
  - do 8 apply occurs_skip. apply occurs_line.
  - do 12 apply occurs_skip. apply occurs_line.
Qed.

Lemma later_prompt_without_bids_witness :
  length (split (state_str opening_state)) <= 1 /\
  occurs ("Current bid: None" +:+ nl)
    (_generate_liars_dice_prompt demo_bot opening_state false).
Proof.
  assert (Hlen : length (split (state_str opening_state)) <= 1)
    by (vm_compute; lia).
  split; [exact Hlen|].
  exact (proj1 (@later_prompt_without_bids lcg demo_bot opening_state Hlen)).
Defined.

(** X10.  When the text of the state does not start with a run of digits
    (its first part is not all digits, or it has no part), the prompt of
    Liar's Dice takes the bot to hold no dice: it reports 0 dice for the
    player and 0 dice in the game, on the first turn and on the later ones. *)
Theorem prompt_without_dice {RS : RandomSource} (self : LLMBot)
    (state : State) :
  match split (state_str state) with
  | part :: _ => isdigit part = false
  | [] => True
  end ->
  let first := _generate_liars_dice_prompt self state true in
  let later := _generate_liars_dice_prompt self state false in
  occurs "Dice per player: 0 dice (values 1-6)" first /\
  occurs "Total dice in game: 0 dice" first /\
  occurs "Your dice (0 dice): " later /\
  occurs "Total dice in game: 0" later.
Proof.
  intros Hpart first later. subst first later.
  unfold _generate_liars_dice_prompt. cbv zeta.
  assert (Hd : isdigit match split (state_str state) with
                       | part :: _ => part
                       | [] => EmptyString
                       end = false).
  { destruct (split (state_str state)); [reflexivity|exact Hpart]. }
  rewrite Hd. cbn [length]. change (Z.of_nat 0) with 0%Z.
  rewrite Z.mul_0_r. rewrite face_lines_appended. cbn [join].
  split; [|split; [|split]].
  - do 2 apply occurs_left. do 8 apply occurs_skip.
    apply occurs_left. by apply contains_occurs.
  - do 2 apply occurs_left. do 10 apply occurs_skip.
    apply occurs_left. by apply contains_occurs.
  - do 4 apply occurs_skip. apply occurs_left. by apply contains_occurs.
  - do 6 apply occurs_skip. apply occurs_left. by apply contains_occurs.
Qed.

Lemma prompt_without_dice_witness :
  isdigit "-" = false /\
  occurs "Your dice (0 dice): "
    (_generate_liars_dice_prompt demo_bot chance_state false) /\
  occurs "Total dice in game: 0 dice"
    (_generate_liars_dice_prompt demo_bot chance_state true).
Proof.
  assert (H : match split (state_str chance_state) with
              | part :: _ => isdigit part = false
              | [] => True
              end) by reflexivity.
  split; [reflexivity|].
  destruct (@prompt_without_dice lcg demo_bot chance_state H)
    as (_ & Htotal & Hdice & _).
  split; [exact Hdice|exact Htotal].
Defined.

(** X11.  The first-turn prompt of Liar's Dice does not show the bids: it
    always announces an empty bid history and the opening bid, and two
    states that render the same dice and offer the same actions get the same
    prompt, whatever bids they render. *)
Theorem first_prompt_ignores_bids {RS : RandomSource} (self : LLMBot)
    (state state' : State) :
  head (split (state_str state)) = head (split (state_str state')) ->
  legal_actions state (_player_id self)
  = legal_actions state' (_player_id self) ->
  (forall action,
      action_to_string state (_player_id self) action
      = action_to_string state' (_player_id self) action) ->
  let p := _generate_liars_dice_prompt self state true in
  _generate_liars_dice_prompt self state' true = p /\
  occurs "Bid history: None (you're making the opening bid)" p.
Proof.
  intros Hhead Hlegal Hdesc p. subst p. split.
  - unfold _generate_liars_dice_prompt. cbv zeta.
    assert (Hpart :
      match split (state_str state') with p :: _ => p | [] => EmptyString end
      = match split (state_str state) with p :: _ => p | [] => EmptyString end).
    { destruct (split (state_str state)), (split (state_str state'));
        cbn in Hhead; congruence. }
    rewrite Hpart, <- Hlegal.
    rewrite (map_ext _ _ (fun action =>
               f_equal (fun d => str action +:+ ": " +:+ d)
                 (eq_sym (Hdesc action)))).
    reflexivity.
  - unfold _generate_liars_dice_prompt. cbv zeta.
    apply occurs_skip. cbn [join]. do 2 apply occurs_skip.
    apply occurs_here.
Qed.

Lemma first_prompt_ignores_bids_witness :
  split (state_str replied_state) = ["113"; "1-2"] /\
  _generate_liars_dice_prompt demo_bot replied_state true
  = _generate_liars_dice_prompt demo_bot opening_state true.
Proof.
  split; [reflexivity|].
  apply (@first_prompt_ignores_bids lcg demo_bot opening_state replied_state);
    reflexivity.
Defined.

(** X12.  On a later turn of Liar's Dice the dice shown are the digits of
    the first part of the state's text, one die for each digit, and the
    total is the number of players times the number of these digits. *)
Theorem later_prompt_shows_dice {RS : RandomSource} (self : LLMBot)
    (state : State) (part : string) (bids : list string) :
  split (state_str state) = part :: bids ->
  isdigit part = true ->
  let p := _generate_liars_dice_prompt self state false in
  let dice := Z.of_nat (length (chars part)) in
  occurs ("Your dice (" +:+ str dice +:+ " dice): "
          +:+ join ", " (map (fun c => String c EmptyString) (chars part))
          +:+ nl) p /\
  occurs ("Total dice in game: "
          +:+ str (num_players (_game self) * dice) +:+ nl) p.
Proof.
  intros Hsplit Hdigit p dice. subst p dice.
  unfold _generate_liars_dice_prompt. rewrite Hsplit. cbv zeta.
  rewrite Hdigit.
  rewrite (str_digit_values _ (isdigit_digits _ Hdigit)), length_map.
  cbn [join]. split.
  - do 4 apply occurs_skip. eapply occurs_start.
    rewrite !append_assoc. reflexivity.
  - do 6 apply occurs_skip. apply occurs_line.
Qed.

Lemma later_prompt_shows_dice_witness :
  split (state_str later_state) = ["113"; "1-2"; "2-3"] /\
  isdigit "113" = true /\
  occurs ("Your dice (3 dice): 1, 1, 3" +:+ nl)
    (_generate_liars_dice_prompt demo_bot later_state false) /\
  occurs ("Total dice in game: 6" +:+ nl)
    (_generate_liars_dice_prompt demo_bot later_state false).
Proof.
  split; [reflexivity|]. split; [reflexivity|].
  exact (@later_prompt_shows_dice lcg demo_bot later_state "113"
           ["1-2"; "2-3"] eq_refl eq_refl).
Defined.

(** X13.  The first-turn prompt of Liar's Dice counts the dice by face: for
    each face from 1 to 6 it holds the line with the number of dice of this
    face among the digits of the first part of the state's text, marked as
    wild for the face 1 when there is such a die, and the task names the
    number of dice of face 1 as the wild ones.  A digit 0, 7, 8 or 9 in this
    part is a die of no face that is counted. *)
Theorem first_prompt_counts_faces {RS : RandomSource} (self : LLMBot)
    (state : State) (part : string) (bids : list string) :
  split (state_str state) = part :: bids ->
  isdigit part = true ->
  let p := _generate_liars_dice_prompt self state true in
  let dice := map digit_value (chars part) in
  (forall face, (1 <= face <= 6)%Z ->
     occurs ("  " +:+ str face +:+ "s: " +:+ str (count dice face)
             +:+ " dice"
             +:+ (if (face =? 1)%Z && (0 <? count dice face)%Z
                  then " (WILD - counts as any face)"
                  else EmptyString)
             +:+ nl) p) /\
  occurs ("Since you have " +:+ str (count dice 1) +:+ " wild 1s") p.
Proof.
  intros Hsplit Hdigit p dice. subst p.
  unfold _generate_liars_dice_prompt. rewrite Hsplit. cbv zeta.
  rewrite Hdigit. fold dice. rewrite face_lines_appended. split.
  - intros face Hface. apply occurs_left, occurs_skip.
    apply (occurs_join_elem _ EmptyString).
    apply (in_map (fun face =>
             "  " +:+ str face +:+ "s: " +:+ str (count dice face)
             +:+ " dice"
             +:+ (if (face =? 1)%Z && (0 <? count dice face)%Z
                  then " (WILD - counts as any face)"
                  else EmptyString)
             +:+ nl)).
    change (seqZ 1 6) with [1; 2; 3; 4; 5; 6]%Z. cbn [In]. lia.
  - apply occurs_skip. cbn [join]. do 10 apply occurs_skip.
    apply occurs_left. eapply occurs_start.
    rewrite !append_assoc. reflexivity.
Qed.

Lemma first_prompt_counts_faces_witness :
  split (state_str opening_state) = ["113"] /\
  isdigit "113" = true /\
  occurs ("  3s: 1 dice" +:+ nl)
    (_generate_liars_dice_prompt demo_bot opening_state true).
Proof.
  split; [reflexivity|]. split; [reflexivity|].
  destruct (@first_prompt_counts_faces lcg demo_bot opening_state "113" []
              eq_refl eq_refl) as [Hfaces _].
  apply (Hfaces 3%Z). lia.
Defined.

(** X14.  Every prompt ends with the line that asks for the choice: whatever
    the game and the turn, its last line is [Your choice: ], with no line
    break after it. *)
Theorem prompt_ends_with_choice {RS : RandomSource} (self : LLMBot)
    (state : State) :
  exists before,
    _generate_prompt self state = before +:+ nl +:+ "Your choice: ".
Proof.
  assert (Hskip : forall a b before,
            b = before +:+ nl +:+ "Your choice: " ->
            a +:+ b = (a +:+ before) +:+ nl +:+ "Your choice: ").
  { intros a b before ->. by rewrite append_assoc. }
  unfold _generate_prompt.
  destruct (String.eqb (short_name (_game self)) "liars_dice").
  - unfold _generate_liars_dice_prompt.
    destruct (length (_conversation self) =? 0); cbv zeta; cbn [join];
      eexists; repeat first [reflexivity|apply Hskip].
  - unfold _generate_default_prompt. cbv zeta. cbn [join].
    eexists. repeat first [reflexivity|apply Hskip].
Qed.


(** X15.  [_parse_action], which searches the stripped response for
    [\b(\d+)\b], takes the first standalone integer token of the text: the
    first maximal run of word characters that is made of decimal digits
    only.  When this token has more than 4300 digits, [int] raises and so
    does [_parse_action]; when its value is a legal action, [_parse_action]
    returns this value and leaves the bot as it is; when the value is not
    legal, or when the text has no such token, it returns the element of the
    legal actions at the index drawn from the bot's own random source. *)
Theorem parse_action_first_standalone_integer {RS : RandomSource}
    (response : string) (legal : list Z) (self : LLMBot) :
  legal <> [] ->
  let r := _parse_action response legal self in
  let draw := randint (_rng self) (length legal) in
  let fallback :=
    exists a, legal !! fst draw = Some a /\
              r = Run [] (Returned a) (set_rng (snd draw) self) in
  match SpecParser.first_standalone_integer (chars response) with
  | Some token =>
      if int_max_str_digits <? length token
      then r = Run [] (Raised (int_limit_error (length token))) self
      else if bool_decide (digits_value token ∈ legal)
           then r = Run [] (Returned (digits_value token)) self
           else fallback
  | None => fallback
  end.
Proof.
  intros Hl r draw fallback.
  assert (Hfb : rng_choice legal self = r -> fallback).
  { intros <-. destruct (rng_choice_draw legal self Hl) as (a & Ha & Hr).
    exists a. by split. }
  subst r. rewrite parse_action_spec in Hfb |- *.
  destruct (SpecParser.first_standalone_integer (chars response)) as [d|];
    [|by apply Hfb].
  destruct (int_max_str_digits <? length d); [reflexivity|].
  destruct (bool_decide (digits_value d ∈ legal)); [reflexivity|].
  by apply Hfb.
Qed.

Lemma parse_action_first_standalone_integer_witness :
  ([4; 5; 6]%Z <> []) /\
  SpecParser.first_standalone_integer (chars "bid2 or 12a? I pick 5, not 6")
  = Some (chars "5") /\
  _parse_action "bid2 or 12a? I pick 5, not 6" [4; 5; 6]%Z demo_bot
  = Run [] (Returned 5%Z) demo_bot.
Proof.
  assert (Hl : [4; 5; 6]%Z <> []) by discriminate.
  split; [exact Hl|]. split; [reflexivity|].
  exact (@parse_action_first_standalone_integer lcg
           "bid2 or 12a? I pick 5, not 6" [4; 5; 6]%Z demo_bot Hl).
Defined.

(** X16.  When the call of the turn succeeds and the response names no legal
    action, the last error after the turn is the one from before the turn;
    and when [int] accepts the integer of the response, if there is one, the
    turn returns the element of the legal actions, of which there is one at
    least, at the index drawn from the bot's random source. *)
Theorem parse_failure_keeps_last_error {RS : RandomSource}
    (llm : llm_chat_fn) (state : State) (self : LLMBot) (k : Z)
    (response : string) (usage : option (gmap string Z)) :
  let prompt := _generate_prompt self state in
  let legal := legal_actions state (_player_id self) in
  succeeds_at llm prompt k response usage ->
  names_no_legal_action response legal ->
  let r := step llm state self in
  _last_error (final r) = _last_error self /\
  (int_accepts response -> legal <> [] ->
   exists a, legal !! fst (randint (_rng self) (length legal)) = Some a
             /\ outcome r = Returned a).
Proof.
  intros prompt legal Hs Hno r. subst r.
  destruct (step_succeeds_fields llm state self k response usage Hs)
    as (_ & _ & He & _ & Ho & _).
  split; [exact He|]. intros Hfit Hl. rewrite Ho. fold prompt legal.
  set (self1 := record_exchange prompt response usage self).
  assert (Hrng : _rng self1 = _rng self).
  { by destruct (record_exchange_frame prompt response usage self)
      as (_ & _ & H & _). }
  destruct (rng_choice_draw legal self1 Hl) as (a & Ha & Hr).
  rewrite Hrng in Ha. exists a. split; [exact Ha|].
  rewrite parse_action_spec. unfold names_no_legal_action in Hno.
  destruct (SpecParser.first_standalone_integer (chars response))
    as [d|] eqn:Hd; [|by rewrite Hr].
  rewrite (int_accepts_token response d Hfit Hd).
  destruct (bool_decide (digits_value d ∈ legal)) eqn:Hin; [|by rewrite Hr].
  apply bool_decide_eq_true in Hin. contradiction.
Qed.

Lemma parse_failure_keeps_last_error_witness :
  succeeds_at (llm_answers "no idea" None)
    (_generate_prompt demo_bot opening_state) 0 "no idea" None /\
  names_no_legal_action "no idea"
    (legal_actions opening_state (_player_id demo_bot)) /\
  int_accepts "no idea" /\
  _last_error
    (final (step (llm_answers "no idea" None) opening_state demo_bot))
  = _last_error demo_bot /\
  outcome (step (llm_answers "no idea" None) opening_state demo_bot)
  = Returned 1%Z.
Proof.
  assert (Hs : succeeds_at (llm_answers "no idea" None)
                 (_generate_prompt demo_bot opening_state) 0 "no idea" None).
  { split; [unfold max_retries; lia|]. split; [intros; lia|reflexivity]. }
  assert (Hn : names_no_legal_action "no idea"
                 (legal_actions opening_state (_player_id demo_bot)))
    by exact I.
  assert (Hfit : int_accepts "no idea") by exact I.
  split; [exact Hs|]. split; [exact Hn|]. split; [exact Hfit|].
  destruct (@parse_failure_keeps_last_error lcg _ _ _ _ _ _ Hs Hn)
    as [He Hret].
  split; [exact He|].
  destruct (Hret Hfit) as (a & Ha & ->); [discriminate|].
  f_equal. vm_compute in Ha. by injection Ha.
Defined.

(** X17.  The two entries of the transcript and the additions to the totals
    are made inside the [try] statement: when a call returns and the
    additions raise, on a usage dict that holds [None] for a count, say, the
    attempt is retried like a failed call, but its exchange stays in the
    transcript.  So a turn whose attempts are all handled, by a failing call
    or by the additions, calls the function three times, keeps the exchange
    of each attempt whose call returned, records nothing in the action
    history, writes the last error of the third attempt, and returns an
    action drawn from the legal actions when there is one. *)
Theorem handled_attempts_keep_exchanges {RS : RandomSource}
    (llm : llm_chat_fn) (state : State) (self : LLMBot) :
  let prompt := _generate_prompt self state in
  let legal := legal_actions state (_player_id self) in
  all_handled llm prompt ->
  let r := step llm state self in
  llm_calls (output r) = replicate 3 prompt /\
  get_conversation (final r)
  = get_conversation self
    ++ kept_exchange prompt (llm prompt 0%Z)
    ++ kept_exchange prompt (llm prompt 1%Z)
    ++ kept_exchange prompt (llm prompt 2%Z) /\
  _action_history (final r) = _action_history self /\
  get_last_error (final r)
  = Some (terminal_error prompt (llm prompt 2%Z)) /\
  (legal <> [] -> exists a, outcome r = Returned a /\ a ∈ legal).
Proof.
  intros prompt legal Hh r. subst r.
  pose proof (Hh 0%Z ltac:(unfold max_retries; lia)) as H0.
  pose proof (Hh 1%Z ltac:(unfold max_retries; lia)) as H1.
  pose proof (Hh 2%Z ltac:(unfold max_retries; lia)) as H2.
  rewrite step_turn, range_max_retries. fold prompt.
  destruct (turn_from_handled llm state prompt 0 [1; 2]%Z self H0)
    as [l0 ->].
  set (s1 := after_failure prompt (llm prompt 0%Z) self).
  destruct (turn_from_handled llm state prompt 1 [2]%Z s1 H1) as [l1 ->].
  set (s2 := after_failure prompt (llm prompt 1%Z) s1).
  destruct (turn_from_handled llm state prompt 2 [] s2 H2) as [l2 ->].
  set (s3 := after_failure prompt (llm prompt 2%Z) s2).
  change (0 <? max_retries - 1)%Z with true;
    change (1 <? max_retries - 1)%Z with true;
    change (2 <? max_retries - 1)%Z with false; cbv iota.
  rewrite !prepend_prepend.
  destruct (after_failure_frame prompt (llm prompt 0%Z) self)
    as (_ & Hp1 & _ & Hh1 & _). fold s1 in Hp1, Hh1.
  destruct (after_failure_frame prompt (llm prompt 1%Z) s1)
    as (_ & Hp2 & _ & Hh2 & _). fold s2 in Hp2, Hh2.
  destruct (after_failure_frame prompt (llm prompt 2%Z) s2)
    as (_ & Hp3 & _ & Hh3 & _). fold s3 in Hp3, Hh3.
  assert (Hlegal : legal_actions state (_player_id s2) = legal)
    by (unfold legal; by rewrite Hp2, Hp1).
  rewrite Hlegal.
  set (s4 := set_last_error (Some (terminal_error prompt (llm prompt 2%Z)))
               s3).
  destruct (rng_choice_final legal s4) as [g Hg].
  unfold prepend, get_conversation, get_last_error. cbn [output final outcome].
  rewrite Hg, llm_calls_app, rng_choice_output.
  split; [reflexivity|]. split.
  { cbn [set_rng set_last_error _conversation s4]. unfold s3, s2, s1.
    rewrite !after_failure_conversation, <- !app_assoc. reflexivity. }
  split.
  { cbn [set_rng set_last_error _action_history s4].
    by rewrite Hh3, Hh2, Hh1. }
  split; [reflexivity|].
  intros Hl. by apply rng_choice_member.
Qed.

Lemma handled_attempts_keep_exchanges_witness :
  let prompt := _generate_prompt demo_bot opening_state in
  let r := step llm_bad_usage opening_state demo_bot in
  all_handled llm_bad_usage prompt /\
  llm_calls (output r) = replicate 3 prompt /\
  get_conversation (final r)
  = [Message "user" prompt; Message "assistant" "2";
     Message "user" prompt; Message "assistant" "2";
     Message "user" prompt; Message "assistant" "2"] /\
  get_total_usage (final r)
  = {| prompt_tokens := 30; completion_tokens := 0; total_tokens := 0 |} /\
  outcome r = Returned 1%Z.
Proof.
  intros prompt r.
  assert (Hh : all_handled llm_bad_usage prompt) by (intros j _; reflexivity).
  split; [exact Hh|].
  destruct (@handled_attempts_keep_exchanges lcg llm_bad_usage opening_state
              demo_bot Hh) as (Hcalls & Hconv & _).
  split; [exact Hcalls|]. split; [exact Hconv|].
  split; reflexivity.
Defined.
